(** * The macOS backend of Tk: XImage pixels, the nsimage type, printing

  A shallow embedding of [macosx/tkMacOSXImage.c] and
  [macosx/tkMacOSXPrint.c].

  - C integers are [Z]; every conversion to a fixed width is written out
    ([to_uchar], [to_ushort], [to_uint], [to_int], [to_size_t]).  Signed
    overflow, undefined in C, is taken as the two's-complement wrap-around
    of the target compilers.
  - A pointer that may be [NULL] is an [option]; the pixel buffer behind
    [image->data] is a [list Z] of byte cells, and an access outside it is
    the outcome [Fault].
  - Objects of the operating system (NSImage, CGImage, the print panel)
    are symbolic values or section variables. *)

From Stdlib Require Import ZArith Lia QArith Ascii String.
From stdpp Require Import gmap strings list.

Local Open Scope Z_scope.

(** ** Fixed-width integers *)

Definition to_uchar (z : Z) : Z := z mod 256.
Definition to_ushort (z : Z) : Z := z mod 65536.
Definition to_uint (z : Z) : Z := z mod 4294967296.
Definition to_int (z : Z) : Z := (z + 2147483648) mod 4294967296 - 2147483648.
Definition to_size_t (z : Z) : Z := z mod 18446744073709551616.

(** [c ? a : b] and [if (c)] test an integer against zero. *)
Definition nonzero (z : Z) : bool := negb (z =? 0).

Definition NBBY : Z := 8.

(** Constants of [X.h]. *)
Definition XYBitmap : Z := 0.
Definition XYPixmap : Z := 1.
Definition ZPixmap : Z := 2.
Definition LSBFirst : Z := 0.
Definition MSBFirst : Z := 1.

(** ** Outcome of code that touches memory *)

Inductive access (A : Type) : Type :=
| Done (a : A)
| Fault.
Arguments Done {A} a.
Arguments Fault {A}.

Definition access_bind {A B : Type} (m : access A) (k : A -> access B) : access B :=
match m with
| Done a => k a
| Fault => Fault
end.

Notation "x <- m ;;; k" := (access_bind m (fun x => k))
(at level 200, m at level 99, right associativity).

(** ** The byte buffer *)

Definition load8 (mem : list Z) (off : Z) : access Z :=
if 0 <=? off then
  match mem !! Z.to_nat off with
  | Some b => Done (to_uchar b)
  | None => Fault
  end
else Fault.

Definition store8 (mem : list Z) (off : Z) (v : Z) : access (list Z) :=
if (0 <=? off) && (off <? Z.of_nat (length mem)) then
  Done (<[Z.to_nat off := to_uchar v]> mem)
else Fault.

Section Endian.

(** [WORDS_BIGENDIAN] of the build: the byte order of the machine. *)
Variable WORDS_BIGENDIAN : bool.

(** Reading through an [unsigned short] pointer. *)
Definition load16 (mem : list Z) (off : Z) : access Z :=
  b0 <- load8 mem off ;;;
  b1 <- load8 mem (off + 1) ;;;
  Done (if WORDS_BIGENDIAN then Z.lor (Z.shiftl b0 8) b1
        else Z.lor (Z.shiftl b1 8) b0).

(** Reading through an [unsigned int] pointer. *)
Definition load32 (mem : list Z) (off : Z) : access Z :=
  b0 <- load8 mem off ;;;
  b1 <- load8 mem (off + 1) ;;;
  b2 <- load8 mem (off + 2) ;;;
  b3 <- load8 mem (off + 3) ;;;
  Done (if WORDS_BIGENDIAN
        then Z.lor (Z.lor (Z.shiftl b0 24) (Z.shiftl b1 16))
                   (Z.lor (Z.shiftl b2 8) b3)
        else Z.lor (Z.lor (Z.shiftl b3 24) (Z.shiftl b2 16))
                   (Z.lor (Z.shiftl b1 8) b0)).

(** Writing through an [unsigned short] pointer. *)
Definition store16 (mem : list Z) (off : Z) (v : Z) : access (list Z) :=
  let w := to_ushort v in
  let lo := Z.land w 255 in
  let hi := Z.shiftr w 8 in
  m1 <- store8 mem off (if WORDS_BIGENDIAN then hi else lo) ;;;
  store8 m1 (off + 1) (if WORDS_BIGENDIAN then lo else hi).

(** Writing through an [unsigned int] pointer. *)
Definition store32 (mem : list Z) (off : Z) (v : Z) : access (list Z) :=
  let w := to_uint v in
  let byte (i : Z) := Z.land (Z.shiftr w (8 * i)) 255 in
  m1 <- store8 mem off (byte (if WORDS_BIGENDIAN then 3 else 0)) ;;;
  m2 <- store8 m1 (off + 1) (byte (if WORDS_BIGENDIAN then 2 else 1)) ;;;
  m3 <- store8 m2 (off + 2) (byte (if WORDS_BIGENDIAN then 1 else 2)) ;;;
  store8 m3 (off + 3) (byte (if WORDS_BIGENDIAN then 0 else 3)).

End Endian.

(** ** XImage

  The struct of [Xlib.h], without its table of function pointers. *)

Record XImage : Type := mkXImage {
width : Z;
height : Z;
xoffset : Z;
format : Z;
data : option (list Z);
byte_order : Z;
bitmap_unit : Z;
bitmap_bit_order : Z;
bitmap_pad : Z;
depth : Z;
bytes_per_line : Z;
bits_per_pixel : Z;
red_mask : Z;
green_mask : Z;
blue_mask : Z
}.

Definition set_data (image : XImage) (mem : list Z) : XImage :=
{| width := width image; height := height image; xoffset := xoffset image;
   format := format image; data := Some mem; byte_order := byte_order image;
   bitmap_unit := bitmap_unit image;
   bitmap_bit_order := bitmap_bit_order image;
   bitmap_pad := bitmap_pad image; depth := depth image;
   bytes_per_line := bytes_per_line image;
   bits_per_pixel := bits_per_pixel image; red_mask := red_mask image;
   green_mask := green_mask image; blue_mask := blue_mask image |}.

(** The offset both pixel routines add to [image->data]:
  [(y * bytes_per_line) + (((xoffset + x) * bits_per_pixel) / NBBY)],
  two [int] terms added to the pointer one after the other. *)
Definition pixel_offset (image : XImage) (x y : Z) : Z :=
to_int (y * bytes_per_line image)
+ Z.quot (to_int (to_int (xoffset image + x) * bits_per_pixel image)) NBBY.

Section Pixels.

Variable WORDS_BIGENDIAN : bool.

(** [TkMacOSXRGBPixel] is defined in [tkMacOSXColor.c]. *)
Variable TkMacOSXRGBPixel : Z -> Z -> Z -> Z.

(** The 8 bit red, green and blue values [ImageGetPixel] computes before
    it hands them to [TkMacOSXRGBPixel]. *)
Definition ImageGetPixel_rgb (image : option XImage) (x y : Z)
  : access (Z * Z * Z) :=
  match image with
  | Some img =>
    match data img with
    | Some mem =>
      let srcPtr := pixel_offset img x y in
      let bpp := bits_per_pixel img in
      if bpp =? 32 then
        w <- load32 WORDS_BIGENDIAN mem srcPtr ;;;
        Done (to_uchar (Z.land (Z.shiftr w 16) 255),
              to_uchar (Z.land (Z.shiftr w 8) 255),
              to_uchar (Z.land w 255))
      else if bpp =? 16 then
        w <- load16 WORDS_BIGENDIAN mem srcPtr ;;;
        Done (to_uchar (Z.land (Z.shiftr w 7) 248),
              to_uchar (Z.land (Z.shiftr w 2) 248),
              to_uchar (Z.land (Z.shiftl w 3) 248))
      else if bpp =? 8 then
        v <- load8 mem srcPtr ;;;
        let r := to_uchar (Z.land (Z.shiftl v 2) 192) in
        let g := to_uchar (Z.land (Z.shiftl v 4) 192) in
        let b := to_uchar (Z.land (Z.shiftl v 6) 192) in
        let spread (c : Z) :=
          to_uchar (Z.lor c (Z.lor (Z.lor (Z.shiftr c 2) (Z.shiftr c 4))
                                   (Z.shiftr c 6))) in
        Done (spread r, spread g, spread b)
      else if bpp =? 4 then
        v <- load8 mem srcPtr ;;;
        let c := to_uchar (if nonzero (Z.rem x 2) then v else Z.shiftr v 4) in
        Done (if nonzero (Z.land c 4) then 255 else 0,
              if nonzero (Z.land c 2) then 255 else 0,
              if nonzero (Z.land c 1) then 255 else 0)
      else if bpp =? 1 then
        v <- load8 mem srcPtr ;;;
        let c := if nonzero (Z.land v (Z.shiftr 128 (Z.rem x 8)))
                 then 255 else 0 in
        Done (c, c, c)
      else Done (0, 0, 0)
    | None => Done (0, 0, 0)
    end
  | None => Done (0, 0, 0)
  end.

Definition ImageGetPixel (image : option XImage) (x y : Z) : access Z :=
  rgb <- ImageGetPixel_rgb image x y ;;;
  Done (TkMacOSXRGBPixel (fst (fst rgb)) (snd (fst rgb)) (snd rgb)).

(** [ImagePutPixel] returns 0; the outcome carries the image as the call
    leaves it. *)
Definition ImagePutPixel (image : option XImage) (x y : Z) (pixel : Z)
  : access (option XImage * Z) :=
  match image with
  | Some img =>
    match data img with
    | Some mem =>
      let dstPtr := pixel_offset img x y in
      let bpp := bits_per_pixel img in
      if bpp =? 32 then
        m <- store32 WORDS_BIGENDIAN mem dstPtr pixel ;;;
        Done (Some (set_data img m), 0)
      else
        let r := to_uchar (Z.land (Z.shiftr (Z.land pixel (red_mask img)) 16) 255) in
        let g := to_uchar (Z.land (Z.shiftr (Z.land pixel (green_mask img)) 8) 255) in
        let b := to_uchar (Z.land (Z.land pixel (blue_mask img)) 255) in
        if bpp =? 16 then
          m <- store16 WORDS_BIGENDIAN mem dstPtr
                 (Z.lor (Z.lor (Z.shiftl (Z.land r 248) 7)
                               (Z.shiftl (Z.land g 248) 2))
                        (Z.shiftr (Z.land b 248) 3)) ;;;
          Done (Some (set_data img m), 0)
        else if bpp =? 8 then
          m <- store8 mem dstPtr
                 (Z.lor (Z.lor (Z.shiftr (Z.land r 192) 2)
                               (Z.shiftr (Z.land g 192) 4))
                        (Z.shiftr (Z.land b 192) 6)) ;;;
          Done (Some (set_data img m), 0)
        else if bpp =? 4 then
          let c := to_uchar (Z.lor (Z.lor (Z.shiftr (Z.land r 128) 5)
                                          (Z.shiftr (Z.land g 128) 6))
                                   (Z.shiftr (Z.land b 128) 7)) in
          old <- load8 mem dstPtr ;;;
          m <- store8 mem dstPtr
                 (if nonzero (Z.rem x 2)
                  then Z.lor (Z.land old 240) (Z.land c 15)
                  else Z.lor (Z.land old 15) (Z.land (Z.shiftl c 4) 240)) ;;;
          Done (Some (set_data img m), 0)
        else if bpp =? 1 then
          old <- load8 mem dstPtr ;;;
          m <- store8 mem dstPtr
                 (if nonzero (Z.land (Z.lor (Z.lor r g) b) 128)
                  then Z.lor old (Z.shiftr 128 (Z.rem x 8))
                  else Z.land old (Z.lnot (Z.shiftr 128 (Z.rem x 8)))) ;;;
          Done (Some (set_data img m), 0)
        else Done (Some img, 0)
    | None => Done (Some img, 0)
    end
  | None => Done (None, 0)
  end.

End Pixels.

(** ** XCreateImage *)

Record Display : Type := mkDisplay { request : Z }.

Section Create.

Variable WORDS_BIGENDIAN : bool.

(** [width], [height] and [depth] arrive as [unsigned int], the struct stores
    them as [int].  The stride is computed in [unsigned int]: the product
    with the unsigned [width] converts every other operand. *)
Definition XCreateImage (display : Display) (depth : Z) (format : Z)
  (offset : Z) (data : option (list Z)) (width height : Z)
  (bitmap_pad : Z) (bytes_per_line : Z) : Display * XImage :=
  let bpp := if format =? ZPixmap then 32 else 1 in
  let unit := if format =? ZPixmap then 32 else 8 in
  let pad := if nonzero bitmap_pad then bitmap_pad else 128 in
  let stride :=
    if nonzero bytes_per_line then bytes_per_line
    else
      to_int
        (Z.land
           (Z.shiftr
              (to_uint (to_uint (width * bpp) + to_uint (to_int (pad - 1)))) 3)
           (to_uint (Z.lnot (to_int (Z.shiftr pad 3 - 1))))) in
  (mkDisplay (to_size_t (request display + 1)),
   mkXImage (to_int width) (to_int height) offset format data
     (if WORDS_BIGENDIAN then MSBFirst else LSBFirst)
     unit
     (if WORDS_BIGENDIAN then MSBFirst else LSBFirst)
     pad (to_int depth) stride bpp 16711680 65280 255).

End Create.

(** ** TkMacOSXCreateCGImageWithXImage *)

(** [size_t len = image->bytes_per_line * image->height]: an [int] product
    converted to [size_t]. *)
Definition CGImage_len (image : XImage) : Z :=
  to_size_t (to_int (bytes_per_line image * height image)).

(** The [len] bytes the routine copies from [image->data + image->xoffset]. *)
Definition read_bytes (data : option (list Z)) (off len : Z)
  : access (list Z) :=
  if len =? 0 then Done []
  else
    match data with
    | Some mem =>
      if (0 <=? off) && (off + len <=? Z.of_nat (length mem))
      then Done (to_uchar <$> take (Z.to_nat len) (drop (Z.to_nat off) mem))
      else Fault
    | None => Fault
    end.

Definition kCGBitmapByteOrder32Little : Z := 8192.
Definition kCGBitmapByteOrder32Big : Z := 16384.
Definition kCGRenderingIntentDefault : Z := 0.

Section CoreGraphics.

Variables CGDataProviderRef CGImageRef CGColorSpaceRef : Type.

(** The table of [xbytes.h]. *)
Variable xBitReverseTable : Z -> Z.

(** Core Graphics; each call may return [NULL]. *)
Variable CGDataProviderCreateWithData : list Z -> Z -> option CGDataProviderRef.
Variable CGImageMaskCreate :
  Z -> Z -> Z -> Z -> Z -> CGDataProviderRef -> option (list Z) -> bool ->
  option CGImageRef.
Variable CGColorSpaceCreateDeviceRGB : option CGColorSpaceRef.
Variable CGImageCreate :
  Z -> Z -> Z -> Z -> Z -> option CGColorSpaceRef -> Z -> CGDataProviderRef ->
  option (list Z) -> bool -> Z -> option CGImageRef.

(** [ckalloc] does not return [NULL], so the copy [data] never is. *)
Definition TkMacOSXCreateCGImageWithXImage (image : XImage) (alphaInfo : Z)
  : access (option CGImageRef) :=
  let len := CGImage_len image in
  if bits_per_pixel image =? 1 then
    let decodeWB := [1; 0] in
    let bitsPerComponent := 1 in
    let bitsPerPixel := 1 in
    bytes <- read_bytes (data image) (xoffset image) len ;;;
    let copied :=
      if negb (bitmap_bit_order image =? MSBFirst)
      then (fun c => to_uchar (xBitReverseTable c)) <$> bytes
      else bytes in
    match CGDataProviderCreateWithData copied len with
    | Some provider =>
      Done (CGImageMaskCreate (to_size_t (width image))
              (to_size_t (height image)) bitsPerComponent bitsPerPixel
              (to_size_t (bytes_per_line image)) provider (Some decodeWB)
              false)
    | None => Done None
    end
  else if (format image =? ZPixmap) && (bits_per_pixel image =? 32) then
    let colorspace := CGColorSpaceCreateDeviceRGB in
    if (width image =? 0) && (height image =? 0) then Done None
    else
      let bitsPerComponent := 8 in
      let bitsPerPixel := 32 in
      let bitmapInfo :=
        Z.lor (if byte_order image =? MSBFirst
               then kCGBitmapByteOrder32Little
               else kCGBitmapByteOrder32Big) alphaInfo in
      bytes <- read_bytes (data image) (xoffset image) len ;;;
      match CGDataProviderCreateWithData bytes len with
      | Some provider =>
        Done (CGImageCreate (to_size_t (width image))
                (to_size_t (height image)) bitsPerComponent bitsPerPixel
                (to_size_t (bytes_per_line image)) colorspace bitmapInfo
                provider None false kCGRenderingIntentDefault)
      | None => Done None
      end
  else Done None.

End CoreGraphics.

(** ** Tcl *)

Definition TCL_OK : Z := 0.
Definition TCL_ERROR : Z := 1.
Definition TCL_EXACT : Z := 1.

Record Interp : Type := mkInterp {
  objResult : string;
  errorCode : list string
}.

Definition Tcl_SetObjResult (interp : Interp) (msg : string) : Interp :=
  mkInterp msg (errorCode interp).

Definition Tcl_SetErrorCode (interp : Interp) (code : list string) : Interp :=
  mkInterp (objResult interp) code.

(** The table scan of [Tcl_GetIndexFromObj], a routine of the Tcl library
    ([generic/tclIndexObj.c]): an exact match ends the scan with its index;
    an entry the key abbreviates is counted and remembered. *)
Fixpoint scan_table (key : string) (table : list string) (idx : Z)
  (numAbbrev : Z) (index : Z) : Z + Z * Z :=
  match table with
  | [] => inr (numAbbrev, index)
  | entry :: rest =>
    if String.eqb key entry then inl idx
    else if String.prefix key entry
         then scan_table key rest (idx + 1) (numAbbrev + 1) idx
         else scan_table key rest (idx + 1) numAbbrev index
  end.

(** [Tcl_GetIndexFromObj]: the index of the entry, or [None] for
    [TCL_ERROR].  Without [TCL_EXACT] a unique abbreviation of an entry is
    taken for it; the empty key is refused.  The table is taken to end after
    the entries the caller declares. *)
Definition Tcl_GetIndexFromObj (objPtr : option string) (table : list string)
  (flags : Z) : option Z :=
  let key := default ""%string objPtr in
  match scan_table key table 0 0 (-1) with
  | inl idx => Some idx
  | inr (numAbbrev, index) =>
    if nonzero (Z.land flags TCL_EXACT) || String.eqb key ""
       || negb (numAbbrev =? 1)
    then None
    else Some index
  end.

(** ** The nsimage image type *)

Module NS.

Inductive NSColor : Type := blackColor | whiteColor.

Inductive NSCompositingOperation : Type :=
| NSCompositeCopy
| NSCompositeSourceOver
| NSCompositeDestinationIn
| NSCompositeSourceAtop.

(** A rectangle: origin and size. *)
Definition NSRect : Type := ((Z * Z) * (Z * Z))%type.
Definition NSZeroPoint : Z * Z := (0, 0).

(** An NSImage, as far as this file acts on it: where its bitmap came from
    ([None] for an image made by [initWithSize:]), its size, whether it is a
    template, and what has been painted on it since, oldest first. *)
Inductive NSImage : Type :=
| mkNSImage (origin : option Z) (extent : Z * Z) (template : bool)
            (painted : list Paint)
with Paint : Type :=
| Fill (color : NSColor) (rect : NSRect) (op : NSCompositingOperation)
| DrawImage (src : NSImage) (dst from : NSRect)
            (op : NSCompositingOperation) (fraction : Q).

Definition origin (i : NSImage) : option Z :=
  match i with mkNSImage o _ _ _ => o end.
Definition extent (i : NSImage) : Z * Z :=
  match i with mkNSImage _ e _ _ => e end.
Definition isTemplate (i : NSImage) : bool :=
  match i with mkNSImage _ _ t _ => t end.
Definition painted (i : NSImage) : list Paint :=
  match i with mkNSImage _ _ _ p => p end.

Definition initWithSize (sz : Z * Z) : NSImage := mkNSImage None sz false [].
Definition setSize (i : NSImage) (sz : Z * Z) : NSImage :=
  mkNSImage (origin i) sz (isTemplate i) (painted i).
Definition paint (i : NSImage) (p : Paint) : NSImage :=
  mkNSImage (origin i) (extent i) (isTemplate i) (painted i ++ [p]).

(** [copy] yields a new object with the same content: the same value. *)
Definition copy (i : NSImage) : NSImage := i.

Definition TintImage (image : NSImage) (color : NSColor) (alpha : Q)
  : NSImage :=
  let size := extent image in
  let rect := (NSZeroPoint, size) in
  let mask := initWithSize size in
  let mask := paint mask (Fill color rect NSCompositeCopy) in
  let mask := paint mask (DrawImage image rect rect NSCompositeDestinationIn 1) in
  paint image (DrawImage mask rect rect NSCompositeSourceOver alpha).

Record TkNSImageMaster : Type := mkMaster {
  tkMaster : Z;
  interp : Z;
  width : Z;
  height : Z;
  alpha : Q;
  pressed : bool;
  imageName : option string;
  source : option string;
  as_ : option string;
  flags : Z;
  instancePtr : option nat;
  image : option NSImage;
  darkModeImage : option NSImage
}.

(** A field no statement has written yet is [None]. *)
Record TkNSImageInstance : Type := mkInstance {
  masterPtr : nat;
  instanceImage : option NSImage;
  nextPtr : option nat
}.

Definition IMAGE_CHANGED : Z := 1.

Definition sourceInterpretations : list string :=
  ["name"; "file"; "path"; "filetype"]%string.

Definition NAME_SOURCE : Z := 0.
Definition FILE_SOURCE : Z := 1.
Definition PATH_SOURCE : Z := 2.
Definition FILETYPE_SOURCE : Z := 3.

(** The arguments of one [Tk_ImageChanged] call. *)
Record ImageChanged : Type := mkImageChanged {
  changedMaster : Z;
  changedRect : (Z * Z) * (Z * Z);
  changedSize : Z * Z
}.

(** [masterPtr->source == NULL || masterPtr->source[0] == '0']: the
    character compared with is the digit zero. *)
Definition source_refused (src : option string) : bool :=
  match src with
  | None => true
  | Some s =>
    match s with
    | String c _ => Ascii.eqb c "0"%char
    | EmptyString => false
    end
  end.

Definition newline : string := String (Ascii.ascii_of_nat 10) EmptyString.

Definition msg_source_required : string := "-source is required.".
Definition msg_unknown_interpretation : string :=
  "Unknown interpretation for source in -as option.  Should be name, file, path, or filetype.".
Definition msg_unknown_image : string :=
  ("Unknown named NSImage." +:+ newline
   +:+ "Try omitting ImageName, e.g. use NSCaution for NSImageNameCaution.")%string.
Definition BAD_VALUE : list string :=
  ["TK"; "IMAGE"; "SYSTEM"; "BAD_VALUE"]%string.

Section Configure.

(** The option parser of Tk: return code, interpreter and record after it. *)
Variable Tk_SetOptions :
  Interp -> TkNSImageMaster -> list string -> Z * Interp * TkNSImageMaster.

(** AppKit: [imageNamed:], [initWithContentsOfFile:], [iconForFile:],
    [iconForFileType:]. *)
Variable imageNamed : string -> option NSImage.
Variable initWithContentsOfFile : string -> option NSImage.
Variable iconForFile : string -> option NSImage.
Variable iconForFileType : string -> option NSImage.

Definition TkNSImageConfigureMaster (interp : Interp)
  (masterPtr : TkNSImageMaster) (objv : list string)
  : Z * Interp * TkNSImageMaster * list ImageChanged :=
  let '(code, interp, m) := Tk_SetOptions interp masterPtr objv in
  if negb (code =? TCL_OK) then (TCL_ERROR, interp, m, [])
  else if source_refused (source m) then
    (TCL_ERROR,
     Tcl_SetErrorCode (Tcl_SetObjResult interp msg_source_required) BAD_VALUE,
     m, [])
  else
    let objPtr := as_ m in
    match Tcl_GetIndexFromObj objPtr sourceInterpretations 0 with
    | None =>
      (TCL_ERROR,
       Tcl_SetErrorCode (Tcl_SetObjResult interp msg_unknown_interpretation)
         BAD_VALUE,
       m, [])
    | Some sourceInterpretation =>
      let src := default ""%string (source m) in
      let newImage :=
        if sourceInterpretation =? NAME_SOURCE then copy <$> imageNamed src
        else if sourceInterpretation =? FILE_SOURCE
             then initWithContentsOfFile src
        else if sourceInterpretation =? PATH_SOURCE then iconForFile src
        else if sourceInterpretation =? FILETYPE_SOURCE
             then iconForFileType src
        else None in
      match newImage with
      | Some newImage =>
        let size := (width m, height m) in
        let newImage := setSize newImage size in
        let light := newImage in
        let dark := copy light in
        let '(light, dark) :=
          if isTemplate dark then
            let rect := (NSZeroPoint, size) in
            (light, paint dark (Fill whiteColor rect NSCompositeSourceAtop))
          else if pressed m then
            (TintImage light blackColor (2 # 10),
             TintImage dark whiteColor (5 # 10))
          else (light, dark) in
        (TCL_OK, interp,
         mkMaster (tkMaster m) (NS.interp m) (width m) (height m) (alpha m)
           (pressed m) (imageName m) (source m) (as_ m)
           (to_int (Z.land (flags m) (Z.lnot IMAGE_CHANGED)))
           (instancePtr m) (Some light) (Some dark),
         [mkImageChanged (tkMaster m) ((0, 0), (width m, height m))
            (width m, height m)])
      | None =>
        (TCL_ERROR,
         Tcl_SetErrorCode (Tcl_SetObjResult interp msg_unknown_image)
           BAD_VALUE,
         m, [])
      end
    end.

End Configure.

(** *** Instances live on the heap *)

Inductive cell : Type :=
| MasterCell (m : TkNSImageMaster)
| InstanceCell (i : TkNSImageInstance).

(** [ckalloc]: a block at an address not in use. *)
Definition ckalloc (h : gmap nat cell) (c : cell) : nat * gmap nat cell :=
  let p := fresh (dom h) in (p, <[p := c]> h).

Definition ckfree (h : gmap nat cell) (p : nat) : gmap nat cell := delete p h.

Definition TkNSImageGet (h : gmap nat cell) (tkwin : Z) (clientData : nat)
  : nat * gmap nat cell :=
  let masterPtr := clientData in
  ckalloc h (InstanceCell (mkInstance masterPtr None None)).

Definition TkNSImageFree (h : gmap nat cell) (clientData : nat) (display : Z)
  : gmap nat cell :=
  let instPtr := clientData in
  ckfree h instPtr.

Record MacDrawable : Type := mkMacDrawable {
  winPtr : Z;
  xOff : Z;
  yOff : Z
}.

(** One [drawInRect:fromRect:operation:fraction:respectFlipped:hints:]
    message; the receiver may be [nil]. *)
Record DrawCall : Type := mkDrawCall {
  drawn : option NSImage;
  dstRect : NSRect;
  srcRect : NSRect;
  operation : NSCompositingOperation;
  fraction : Q;
  respectFlipped : bool
}.

Section Display.

Variable CGContextRef : Type.
Variable TkMacOSXInDarkMode : Z -> bool.

(** [None] when the call returns false, else the [context] of the drawing
    context it filled in, which may be [NULL]. *)
Variable TkMacOSXSetupDrawingContext : MacDrawable -> option (option CGContextRef).

Definition TkNSImageDisplay (h : gmap nat cell) (clientData : nat)
  (display : Z) (drawable : MacDrawable) (imageX imageY : Z)
  (width height : Z) (drawableX drawableY : Z) : access (list DrawCall) :=
  let macWin := drawable in
  let tkwin := winPtr macWin in
  match h !! clientData with
  | Some (InstanceCell instPtr) =>
    match h !! masterPtr instPtr with
    | Some (MasterCell masterPtr) =>
      let dstRect := ((xOff macWin + drawableX, yOff macWin + drawableY),
                      (width, height)) in
      let srcRect := ((imageX, imageY), (width, height)) in
      let image := if TkMacOSXInDarkMode tkwin
                   then darkModeImage masterPtr
                   else NS.image masterPtr in
      match TkMacOSXSetupDrawingContext drawable with
      | Some (Some context) =>
        Done [mkDrawCall image dstRect srcRect NSCompositeSourceOver
                (alpha masterPtr) true]
      | Some None => Done []
      | None => Done []
      end
    | _ => Fault
    end
  | _ => Fault
  end.

End Display.

End NS.

(** ** The print dialog *)

Module Print.

Definition noErr : Z := 0.
Definition NSModalResponseCancel : Z := 0.
Definition NSModalResponseOK : Z := 1.
Definition kPMDestinationInvalid : Z := 0.
Definition kPMDestinationPrinter : Z := 1.
Definition kPMDestinationFile : Z := 2.
Definition kPMDestinationFax : Z := 3.
Definition kPMDestinationPreview : Z := 4.
Definition kPMDestinationProcessPDF : Z := 5.

(** The two file-scope variables, and the strings [CFRetain] has been called
    on and [CFRelease] has not. *)
Record Globals : Type := mkGlobals {
  fileName : option string;
  urlFile : option string;
  retained : list string
}.

(** [CFRelease(urlFile)] *)
Definition CFRelease_urlFile (g : Globals) : Globals :=
  match urlFile g with
  | Some s =>
    mkGlobals (fileName g) (urlFile g)
      (match list_find (String.eqb s) (retained g) with
       | Some (i, _) => delete i (retained g)
       | None => retained g
       end)
  | None => g
  end.

(** What the printing system and the panel answer during one call. *)
Record PrintingSystem : Type := mkPrintingSystem {
  PMCreateSession : Z;
  PMCreatePrintSettings : Z;
  PMSessionDefaultPrintSettings : Z;
  runModalWithPrintInfo : Z;
  PMSessionGetDestinationType : Z * Z;
  PMSessionGetCurrentPrinter : Z;
  PMPrinterGetMimeTypes : Z * option (list string);
  PMPrinterPrintWithFile : Z;
  PMSessionCopyDestinationLocation : Z * string;
  fileExistsAtPath : string -> bool
}.

(** What a call does to the world besides its variables. *)
Inductive Action : Type :=
| Tcl_WrongNumArgs (message : string)
| NSLog (message : string)
| PrintWithFile (mimeType : string) (printURL : string)
| copyItemAtPath (sourcePath finalPath : string)
| system (cmd : string)
| openURL (path : string)
| runAlert (messageText informativeText : string)
| PMRelease.

Definition quote : string := String (Ascii.ascii_of_nat 34) EmptyString.

Section Panel.

(** Foundation: [pathExtension], and [getCString:maxLength:encoding:] with
    the buffer it fills. *)
Variable pathExtension : string -> string.
Variable getCString : string -> Z -> string.

(** A file URL is the path it was made from. *)
Definition FinishPrint (g : Globals) (file : option string) (buttonValue : Z)
  (os : PrintingSystem) : Globals * list Action * Z :=
  let status := noErr in
  if buttonValue =? NSModalResponseCancel then (g, [], noErr)
  else
  let status := PMCreateSession os in
  if negb (status =? noErr) then
    (g, [NSLog "Error creating print session."], status)
  else
  let status := PMCreatePrintSettings os in
  if negb (status =? noErr) then
    (g, [NSLog "Error creating print settings."], status)
  else
  let status := PMSessionDefaultPrintSettings os in
  if negb (status =? noErr) then
    (g, [NSLog "Error creating default print settings."], status)
  else
  let last (g : Globals) (status : Z) : Globals * list Action * Z :=
    if buttonValue =? NSModalResponseCancel then (g, [PMRelease], status)
    else (g, [], status) in
  if buttonValue =? NSModalResponseOK then
    match urlFile g with
    | None => (g, [NSLog "Could not get file to print."], noErr)
    | Some printURL =>
      let g := mkGlobals file (urlFile g) (retained g) in
      let '(status, printDestination) := PMSessionGetDestinationType os in
      let unsupported (status : Z) : Globals * list Action * Z :=
        if (status =? noErr)
           && (negb (printDestination =? kPMDestinationPreview)
               || nonzero kPMDestinationFile
               || nonzero kPMDestinationPrinter)
        then (g, [runAlert "Unsupported Printing Operation"
                    "This printing operation is not supported."], status)
        else last g status in
      let preview (status : Z) : Globals * list Action * Z :=
        if (status =? noErr) && (printDestination =? kPMDestinationPreview)
        then (g, [openURL printURL], noErr)
        else unsupported status in
      let to_file (status : Z) : Globals * list Action * Z :=
        if (status =? noErr) && (printDestination =? kPMDestinationFile) then
          let '(status, outputLocation) :=
            PMSessionCopyDestinationLocation os in
          if status =? noErr then
            let sourcePath := printURL in
            let finalPath := outputLocation in
            let ext := pathExtension finalPath in
            let copied :=
              if String.eqb ext "pdf" then
                if fileExistsAtPath os sourcePath
                then [copyItemAtPath sourcePath finalPath]
                else []
              else [] in
            let converted :=
              if String.eqb ext "ps" then
                let source := getCString sourcePath 5012 in
                let target := getCString finalPath 5012 in
                [system ("/usr/sbin/cupsfilter " +:+ quote +:+ source
                         +:+ quote +:+ " -m application/postscript > "
                         +:+ quote +:+ target +:+ quote)]
              else [] in
            (g, copied ++ converted, status)
          else preview status
        else preview status in
      if (status =? noErr) && (printDestination =? kPMDestinationPrinter) then
        let status := PMSessionGetCurrentPrinter os in
        if status =? noErr then
          let '(status, mimeTypes) := PMPrinterGetMimeTypes os in
          match mimeTypes with
          | Some types =>
            if status =? noErr then
              let mimeType := "application/pdf"%string in
              if existsb (String.eqb mimeType) types then
                let status := PMPrinterPrintWithFile os in
                (CFRelease_urlFile g, [PrintWithFile mimeType printURL],
                 status)
              else to_file status
            else to_file status
          | None => to_file status
          end
        else to_file status
      else to_file status
    end
  else last g status.

(** [objv] holds the command word and its arguments.  The first system
    answers the calls [StartPrint] makes itself, the second those of the
    [FinishPrint] that the delegate runs. *)
Definition StartPrint (g : Globals) (objv : list string)
  (os finish : PrintingSystem) : Globals * list Action * Z :=
  if (length objv <? 2)%nat then (g, [Tcl_WrongNumArgs "file"], TCL_ERROR)
  else
    let name := default ""%string (objv !! 1%nat) in
    let g := mkGlobals (Some name) (Some name) (name :: retained g) in
    let status := PMCreateSession os in
    if negb (status =? noErr) then
      (g, [NSLog "Error creating print session."], TCL_ERROR)
    else
    let status := PMCreatePrintSettings os in
    if negb (status =? noErr) then
      (g, [NSLog "Error creating print settings."], TCL_ERROR)
    else
    let status := PMSessionDefaultPrintSettings os in
    if negb (status =? noErr) then
      (g, [NSLog "Error creating default print settings."], TCL_ERROR)
    else
    let accepted := runModalWithPrintInfo os in
    let '(g, actions, _) := FinishPrint g (fileName g) accepted finish in
    (g, actions, TCL_OK).

End Panel.

End Print.

(** ** Vocabulary of the statements *)

(** The 8 bit channels of a pixel value under the default masks. *)
Definition red_of (pixel : Z) : Z := Z.land (Z.shiftr pixel 16) 255.
Definition green_of (pixel : Z) : Z := Z.land (Z.shiftr pixel 8) 255.
Definition blue_of (pixel : Z) : Z := Z.land pixel 255.

(** Exhaustive check of a decidable property below a bound. *)
Fixpoint forall_below (n : nat) (P : Z -> bool) : bool :=
  match n with
  | O => true
  | S k => P (Z.of_nat k) && forall_below k P
  end.

Definition forall_below3 (n : nat) (P : Z -> Z -> Z -> bool) : bool :=
  forall_below n (fun a =>
    forall_below n (fun b => forall_below n (fun c => P a b c))).

(** The masks [XCreateImage] installs. *)
Definition default_masks (image : XImage) : Prop :=
  red_mask image = 16711680 /\ green_mask image = 65280
  /\ blue_mask image = 255.

(** How many bytes one access of the pixel routines touches. *)
Definition pixel_bytes (bpp : Z) : Z :=
  if bpp =? 32 then 4 else if bpp =? 16 then 2 else 1.

(** The bytes the pixel routines touch for [(x, y)] lie inside the buffer
    [mem] of the image. *)
Definition in_buffer (image : XImage) (mem : list Z) (x y : Z) : Prop :=
  data image = Some mem
  /\ 0 <= pixel_offset image x y
  /\ pixel_offset image x y + pixel_bytes (bits_per_pixel image)
     <= Z.of_nat (length mem).

(** Bits per channel that a depth keeps. *)
Definition channel_bits (bpp : Z) : Z :=
  if bpp =? 32 then 8 else if bpp =? 16 then 5 else if bpp =? 8 then 2 else 1.

(** Two 8 bit values agree on their top [k] bits. *)
Definition agree_top (k : Z) (a b : Z) : Prop :=
  Z.shiftr a (8 - k) = Z.shiftr b (8 - k).

Definition supported_depth (bpp : Z) : bool :=
  (bpp =? 1) || (bpp =? 4) || (bpp =? 8) || (bpp =? 16) || (bpp =? 32).

(** No buffer to touch: the image pointer or its data pointer is [NULL]. *)
Definition no_buffer (image : option XImage) : Prop :=
  match image with
  | None => True
  | Some img => data img = None
  end.

Definition unsupported_depth (image : option XImage) : Prop :=
  match image with
  | None => False
  | Some img => supported_depth (bits_per_pixel img) = false
  end.

(** A [bitmap_pad] argument that is zero or a power of two, at least 8, that
    an [int] holds. *)
Definition pad_argument (bitmap_pad : Z) : Prop :=
  bitmap_pad = 0 \/ exists k, 3 <= k <= 30 /\ bitmap_pad = 2 ^ k.

(** Bytes that [bits] bits need. *)
Definition bytes_for (bits : Z) : Z := (bits + 7) / 8.

(** An [-as] value that [Tcl_GetIndexFromObj] takes without [TCL_EXACT]: an
    entry of the table, or a nonempty abbreviation of exactly one entry. *)
Definition as_accepted (key : string) : bool :=
  existsb (String.eqb key) NS.sourceInterpretations
  || (negb (String.eqb key "")
      && (length (List.filter (String.prefix key) NS.sourceInterpretations)
          =? 1)%nat).

(** The AppKit method each interpretation stands for. *)
Definition resolve_by
  (imageNamed initWithContentsOfFile iconForFile iconForFileType
     : string -> option NS.NSImage)
  (entry : string) (src : string) : option NS.NSImage :=
  if String.eqb entry "name" then NS.copy <$> imageNamed src
  else if String.eqb entry "file" then initWithContentsOfFile src
  else if String.eqb entry "path" then iconForFile src
  else if String.eqb entry "filetype" then iconForFileType src
  else None.

(** The command line [FinishPrint] hands to the shell for a PostScript
    target. *)
Definition cupsfilter_command (source target : string) : string :=
  "/usr/sbin/cupsfilter " +:+ Print.quote +:+ source +:+ Print.quote
  +:+ " -m application/postscript > " +:+ Print.quote +:+ target
  +:+ Print.quote.

(** ** Sample inputs *)

(** A pixel value as three 8 bit channels laid out under the default
    masks. *)
Definition sample_RGBPixel (r g b : Z) : Z := r * 65536 + g * 256 + b.

(** A 2 x 1 image of depth [bpp] over a buffer of eight zero bytes. *)
Definition sample_buffer : list Z := [0; 0; 0; 0; 0; 0; 0; 0].
Definition sample_image (bpp : Z) : XImage :=
  mkXImage 2 1 0 ZPixmap (Some sample_buffer) LSBFirst 32 LSBFirst 32 24 8
    bpp 16711680 65280 255.

(** An option parser that accepts what it is given and changes nothing. *)
Definition sample_SetOptions (interp : Interp) (m : NS.TkNSImageMaster)
  (objv : list string) : Z * Interp * NS.TkNSImageMaster :=
  (TCL_OK, interp, m).

(** A 16 x 16 image that is no template, under any name. *)
Definition sample_icon (name : string) : option NS.NSImage :=
  Some (NS.mkNSImage (Some 1) (16, 16) false []).
Definition no_icon (name : string) : option NS.NSImage := None.

Definition sample_master (as_value : string) : NS.TkNSImageMaster :=
  NS.mkMaster 1 1 32 32 1 false (Some "icon"%string)
    (Some "NSCaution"%string) (Some as_value) 0 None None None.

Definition sample_interp : Interp := mkInterp "" [].

(** A printing system whose calls all succeed, with the destination and
    the MIME types of the printer given. *)
Definition sample_system (button destination : Z) (types : list string)
  (exists_ : bool) : Print.PrintingSystem :=
  Print.mkPrintingSystem 0 0 0 button (0, destination) 0 (0, Some types) 0
    (0, "/tmp/out.pdf"%string) (fun _ => exists_).

Definition sample_extension (path : string) : string := "pdf".
Definition sample_CString (s : string) (maxLength : Z) : string := s.

(** * Proofs *)

(** ** Arithmetic of the fixed widths *)

Lemma forall_below_spec (n : nat) (P : Z -> bool) :
  forall_below n P = true ->
  forall z, 0 <= z < Z.of_nat n -> P z = true.
Proof.
  induction n as [|k IH]; simpl; intros H z Hz; [lia|].
  apply andb_true_iff in H as [Hk Hrest].
  destruct (Z.eq_dec z (Z.of_nat k)) as [->|Hne]; [exact Hk|].
  apply IH; [exact Hrest|lia].
Qed.

Lemma to_uchar_range (z : Z) : 0 <= to_uchar z < 256.
Proof. unfold to_uchar. apply Z.mod_pos_bound. lia. Qed.

Lemma to_uchar_small (z : Z) : 0 <= z < 256 -> to_uchar z = z.
Proof. intros H. unfold to_uchar. apply Z.mod_small. exact H. Qed.

Lemma land_255_range (z : Z) : 0 <= Z.land z 255 < 256.
Proof.
  change 255 with (Z.ones 8). rewrite Z.land_ones by lia.
  apply Z.mod_pos_bound. lia.
Qed.

(** Bitwise equalities: compare bit by bit, deciding the tests on the
    index. *)
Ltac index_tests :=
  repeat match goal with
         | |- context [?a <=? ?b] => destruct (Z.leb_spec a b)
         | |- context [?a <? ?b] => destruct (Z.ltb_spec a b)
         end.

Ltac bitwise :=
  apply Z.bits_inj'; intros ?n ?Hn;
  repeat first
    [ rewrite Z.land_spec | rewrite Z.lor_spec
    | rewrite Z.shiftr_spec by lia | rewrite Z.shiftl_spec by lia
    | rewrite Z.testbit_ones by lia ];
  index_tests; simpl;
  rewrite ?andb_true_r, ?andb_false_r, ?orb_false_r, ?orb_false_l;
  repeat (rewrite Z.shiftr_spec by lia);
  try reflexivity; try lia;
  try (rewrite Z.testbit_neg_r by lia; reflexivity);
  try (f_equal; lia).

Lemma red_of_masked (p : Z) :
  Z.land (Z.shiftr (Z.land p 16711680) 16) 255 = red_of p.
Proof.
  unfold red_of. change 16711680 with (Z.shiftl (Z.ones 8) 16).
  change 255 with (Z.ones 8). bitwise.
Qed.

Lemma green_of_masked (p : Z) :
  Z.land (Z.shiftr (Z.land p 65280) 8) 255 = green_of p.
Proof.
  unfold green_of. change 65280 with (Z.shiftl (Z.ones 8) 8).
  change 255 with (Z.ones 8). bitwise.
Qed.

Lemma blue_of_masked (p : Z) : Z.land (Z.land p 255) 255 = blue_of p.
Proof. unfold blue_of. rewrite <- Z.land_assoc. reflexivity. Qed.

Lemma byte_of_to_uint (p k : Z) :
  0 <= k <= 24 ->
  Z.land (Z.shiftr (to_uint p) k) 255 = Z.land (Z.shiftr p k) 255.
Proof.
  intros Hk. unfold to_uint. change 4294967296 with (2 ^ 32).
  rewrite <- Z.land_ones by lia. change 255 with (Z.ones 8). bitwise.
Qed.

Lemma bytes_of_uint (w : Z) :
  0 <= w < 4294967296 ->
  Z.lor (Z.lor (Z.shiftl (Z.land (Z.shiftr w 24) 255) 24)
               (Z.shiftl (Z.land (Z.shiftr w 16) 255) 16))
        (Z.lor (Z.shiftl (Z.land (Z.shiftr w 8) 255) 8)
               (Z.land (Z.shiftr w 0) 255)) = w.
Proof.
  intros Hw.
  rewrite <- (Z.mod_small w (2 ^ 32)) at 5 by (change (2 ^ 32) with 4294967296; lia).
  rewrite <- Z.land_ones by lia. change 255 with (Z.ones 8). bitwise.
Qed.

Lemma bytes_of_ushort (w : Z) :
  0 <= w < 65536 ->
  Z.lor (Z.shiftl (Z.shiftr w 8) 8) (Z.land w 255) = w.
Proof.
  intros Hw. change 255 with (Z.ones 8).
  rewrite <- Z.ldiff_ones_r by lia. apply Z.lor_ldiff_and.
Qed.

(** ** The byte buffer *)

Lemma store8_inv (mem : list Z) (off v : Z) (m : list Z) :
  store8 mem off v = Done m ->
  0 <= off < Z.of_nat (length mem)
  /\ m = <[Z.to_nat off := to_uchar v]> mem.
Proof.
  unfold store8. intros H.
  destruct (Z.leb_spec 0 off), (Z.ltb_spec off (Z.of_nat (length mem)));
    simpl in H; try discriminate.
  injection H as <-. split; [lia | reflexivity].
Qed.

Lemma store8_defined (mem : list Z) (off v : Z) :
  0 <= off < Z.of_nat (length mem) ->
  store8 mem off v = Done (<[Z.to_nat off := to_uchar v]> mem).
Proof.
  intros H. unfold store8.
  destruct (Z.leb_spec 0 off), (Z.ltb_spec off (Z.of_nat (length mem)));
    simpl; try lia; reflexivity.
Qed.

Lemma store8_length (mem : list Z) (off v : Z) (m : list Z) :
  store8 mem off v = Done m -> length m = length mem.
Proof.
  intros H. apply store8_inv in H as [_ ->]. apply length_insert.
Qed.

Lemma load8_store8 (mem : list Z) (off v : Z) (m : list Z) :
  store8 mem off v = Done m -> load8 m off = Done (to_uchar v).
Proof.
  intros H. apply store8_inv in H as [Hoff ->]. unfold load8.
  destruct (Z.leb_spec 0 off); [|lia].
  rewrite list_lookup_insert_eq by lia.
  rewrite (to_uchar_small (to_uchar v)) by apply to_uchar_range.
  reflexivity.
Qed.

Lemma load8_store8_other (mem : list Z) (off off' v : Z) (m : list Z) :
  store8 mem off v = Done m -> 0 <= off' -> off' <> off ->
  load8 m off' = load8 mem off'.
Proof.
  intros H Hpos Hne. apply store8_inv in H as [Hoff ->]. unfold load8.
  rewrite list_lookup_insert_ne by lia. reflexivity.
Qed.

Lemma load8_defined (mem : list Z) (off : Z) :
  0 <= off < Z.of_nat (length mem) -> exists b, load8 mem off = Done b.
Proof.
  intros H. unfold load8. destruct (Z.leb_spec 0 off); [|lia].
  destruct (lookup_lt_is_Some_2 mem (Z.to_nat off)) as [b Hb]; [lia|].
  rewrite Hb. eauto.
Qed.

Lemma load8_range (mem : list Z) (off b : Z) :
  load8 mem off = Done b -> 0 <= b < 256.
Proof.
  unfold load8. destruct (0 <=? off); [|discriminate].
  destruct (mem !! Z.to_nat off); [|discriminate].
  intros [= <-]. apply to_uchar_range.
Qed.

Section WordAccess.

Variable E : bool.

Lemma store16_defined (mem : list Z) (off v : Z) :
  0 <= off -> off + 2 <= Z.of_nat (length mem) ->
  exists m, store16 E mem off v = Done m.
Proof.
  intros H0 H2. unfold store16.
  rewrite store8_defined by lia. simpl.
  rewrite store8_defined by (rewrite length_insert; lia). eauto.
Qed.

Lemma store16_length (mem : list Z) (off v : Z) (m : list Z) :
  store16 E mem off v = Done m -> length m = length mem.
Proof.
  unfold store16. intros H.
  destruct (store8 mem off _) as [m1|] eqn:H1; simpl in H; [|discriminate].
  apply store8_length in H, H1. congruence.
Qed.

Lemma load16_store16 (mem : list Z) (off v : Z) (m : list Z) :
  store16 E mem off v = Done m -> load16 E m off = Done (to_ushort v).
Proof.
  unfold store16, load16. intros H.
  destruct (store8 mem off _) as [m1|] eqn:H1; simpl in H; [|discriminate].
  pose proof (store8_inv _ _ _ _ H1) as [Hoff _].
  assert (Hw : 0 <= to_ushort v < 65536)
    by (unfold to_ushort; apply Z.mod_pos_bound; lia).
  assert (Hhi : 0 <= Z.shiftr (to_ushort v) 8 < 256).
  { rewrite Z.shiftr_div_pow2 by lia. change (2 ^ 8) with 256.
    split; [apply Z.div_pos; lia | apply Z.div_lt_upper_bound; lia]. }
  pose proof (land_255_range (to_ushort v)) as Hlo.
  rewrite (load8_store8_other _ _ _ _ _ H) by lia.
  rewrite (load8_store8 _ _ _ _ H1). simpl.
  rewrite (load8_store8 _ _ _ _ H). simpl.
  f_equal. destruct E; rewrite !to_uchar_small by lia;
    apply bytes_of_ushort; exact Hw.
Qed.

Lemma store32_defined (mem : list Z) (off v : Z) :
  0 <= off -> off + 4 <= Z.of_nat (length mem) ->
  exists m, store32 E mem off v = Done m.
Proof.
  intros H0 H4. unfold store32.
  rewrite store8_defined by lia. simpl.
  rewrite store8_defined by (rewrite !length_insert; lia). simpl.
  rewrite store8_defined by (rewrite !length_insert; lia). simpl.
  rewrite store8_defined by (rewrite !length_insert; lia). eauto.
Qed.

Lemma load32_store32 (mem : list Z) (off v : Z) (m : list Z) :
  store32 E mem off v = Done m -> load32 E m off = Done (to_uint v).
Proof.
  unfold store32, load32. intros H.
  destruct (store8 mem off _) as [m1|] eqn:H1; simpl in H; [|discriminate].
  destruct (store8 m1 (off + 1) _) as [m2|] eqn:H2; simpl in H; [|discriminate].
  destruct (store8 m2 (off + 2) _) as [m3|] eqn:H3; simpl in H; [|discriminate].
  pose proof (store8_inv _ _ _ _ H1) as [Hoff _].
  assert (Hw : 0 <= to_uint v < 4294967296)
    by (unfold to_uint; apply Z.mod_pos_bound; lia).
  rewrite (load8_store8_other _ _ _ _ _ H) by lia.
  rewrite (load8_store8_other _ _ _ _ _ H3) by lia.
  rewrite (load8_store8_other _ _ _ _ _ H2) by lia.
  rewrite (load8_store8 _ _ _ _ H1). simpl.
  rewrite (load8_store8_other _ _ _ _ _ H) by lia.
  rewrite (load8_store8_other _ _ _ _ _ H3) by lia.
  rewrite (load8_store8 _ _ _ _ H2). simpl.
  rewrite (load8_store8_other _ _ _ _ _ H) by lia.
  rewrite (load8_store8 _ _ _ _ H3). simpl.
  rewrite (load8_store8 _ _ _ _ H). simpl.
  f_equal.
  destruct E; rewrite !to_uchar_small by apply land_255_range.
  - rewrite <- (bytes_of_uint (to_uint v) Hw) at 5. reflexivity.
  - rewrite <- (bytes_of_uint (to_uint v) Hw) at 5. reflexivity.
Qed.

End WordAccess.

(** ** Packing and unpacking the channels *)

Lemma forall_below3_spec (n : nat) (P : Z -> Z -> Z -> bool) :
  forall_below3 n P = true ->
  forall a b c, 0 <= a < Z.of_nat n -> 0 <= b < Z.of_nat n ->
                0 <= c < Z.of_nat n -> P a b c = true.
Proof.
  unfold forall_below3. intros H a b c Ha Hb Hc.
  pose proof (forall_below_spec n _ H a Ha) as H1. cbv beta in H1.
  pose proof (forall_below_spec n _ H1 b Hb) as H2. cbv beta in H2.
  exact (forall_below_spec n _ H2 c Hc).
Qed.

(** A mask of the top bits of a byte is the kept field, shifted back. *)
Lemma top_field (c : Z) :
  0 <= c < 256 ->
  Z.land c 248 = 8 * Z.shiftr c 3 /\ 0 <= Z.shiftr c 3 < 32
  /\ Z.land c 192 = 64 * Z.shiftr c 6 /\ 0 <= Z.shiftr c 6 < 4
  /\ Z.land c 128 = 128 * Z.shiftr c 7 /\ 0 <= Z.shiftr c 7 < 2.
Proof.
  intros Hc.
  assert (H : forall_below 256 (fun c =>
            (Z.land c 248 =? 8 * Z.shiftr c 3) && (Z.shiftr c 3 <? 32)
            && (Z.land c 192 =? 64 * Z.shiftr c 6) && (Z.shiftr c 6 <? 4)
            && (Z.land c 128 =? 128 * Z.shiftr c 7) && (Z.shiftr c 7 <? 2))
            = true) by (vm_compute; reflexivity).
  pose proof (forall_below_spec 256 _ H c Hc) as Hb. cbv beta in Hb.
  repeat (apply andb_true_iff in Hb as [Hb ?]).
  pose proof (Z.shiftr_nonneg c 3). pose proof (Z.shiftr_nonneg c 6).
  pose proof (Z.shiftr_nonneg c 7). lia.
Qed.

Lemma rgb16_roundtrip (r g b : Z) :
  0 <= r < 256 -> 0 <= g < 256 -> 0 <= b < 256 ->
  let w := to_ushort
             (Z.lor (Z.lor (Z.shiftl (Z.land r 248) 7)
                           (Z.shiftl (Z.land g 248) 2))
                    (Z.shiftr (Z.land b 248) 3)) in
  to_uchar (Z.land (Z.shiftr w 7) 248) = Z.land r 248
  /\ to_uchar (Z.land (Z.shiftr w 2) 248) = Z.land g 248
  /\ to_uchar (Z.land (Z.shiftl w 3) 248) = Z.land b 248.
Proof.
  intros Hr Hg Hb.
  destruct (top_field r Hr) as (-> & Hr5 & _).
  destruct (top_field g Hg) as (-> & Hg5 & _).
  destruct (top_field b Hb) as (-> & Hb5 & _).
  generalize dependent (Z.shiftr r 3). generalize dependent (Z.shiftr g 3).
  generalize dependent (Z.shiftr b 3). intros c Hc e He a Ha.
  assert (H : forall_below3 32 (fun a e c =>
            let w := to_ushort
                       (Z.lor (Z.lor (Z.shiftl (8 * a) 7) (Z.shiftl (8 * e) 2))
                              (Z.shiftr (8 * c) 3)) in
            (to_uchar (Z.land (Z.shiftr w 7) 248) =? 8 * a)
            && (to_uchar (Z.land (Z.shiftr w 2) 248) =? 8 * e)
            && (to_uchar (Z.land (Z.shiftl w 3) 248) =? 8 * c)) = true)
    by (vm_compute; reflexivity).
  pose proof (forall_below3_spec 32 _ H a e c Ha He Hc) as Hk.
  cbv beta zeta in Hk.
  repeat (apply andb_true_iff in Hk as [Hk ?]).
  cbv beta zeta. lia.
Qed.

Lemma rgb8_roundtrip (r g b : Z) :
  0 <= r < 256 -> 0 <= g < 256 -> 0 <= b < 256 ->
  let v := to_uchar
             (Z.lor (Z.lor (Z.shiftr (Z.land r 192) 2)
                           (Z.shiftr (Z.land g 192) 4))
                    (Z.shiftr (Z.land b 192) 6)) in
  let spread (c : Z) :=
    to_uchar (Z.lor c (Z.lor (Z.lor (Z.shiftr c 2) (Z.shiftr c 4))
                             (Z.shiftr c 6))) in
  spread (to_uchar (Z.land (Z.shiftl v 2) 192)) = 85 * Z.shiftr r 6
  /\ spread (to_uchar (Z.land (Z.shiftl v 4) 192)) = 85 * Z.shiftr g 6
  /\ spread (to_uchar (Z.land (Z.shiftl v 6) 192)) = 85 * Z.shiftr b 6.
Proof.
  intros Hr Hg Hb.
  destruct (top_field r Hr) as (_ & _ & -> & Hr2 & _).
  destruct (top_field g Hg) as (_ & _ & -> & Hg2 & _).
  destruct (top_field b Hb) as (_ & _ & -> & Hb2 & _).
  generalize dependent (Z.shiftr r 6). generalize dependent (Z.shiftr g 6).
  generalize dependent (Z.shiftr b 6). intros c Hc e He a Ha.
  assert (H : forall_below3 4 (fun a e c =>
            let v := to_uchar
                       (Z.lor (Z.lor (Z.shiftr (64 * a) 2) (Z.shiftr (64 * e) 4))
                              (Z.shiftr (64 * c) 6)) in
            let spread (c : Z) :=
              to_uchar (Z.lor c (Z.lor (Z.lor (Z.shiftr c 2) (Z.shiftr c 4))
                                       (Z.shiftr c 6))) in
            (spread (to_uchar (Z.land (Z.shiftl v 2) 192)) =? 85 * a)
            && (spread (to_uchar (Z.land (Z.shiftl v 4) 192)) =? 85 * e)
            && (spread (to_uchar (Z.land (Z.shiftl v 6) 192)) =? 85 * c))
            = true) by (vm_compute; reflexivity).
  pose proof (forall_below3_spec 4 _ H a e c Ha He Hc) as Hk.
  cbv beta zeta in Hk.
  repeat (apply andb_true_iff in Hk as [Hk ?]).
  cbv beta zeta. lia.
Qed.

Lemma rgb4_roundtrip (odd : bool) (old r g b : Z) :
  0 <= old < 256 -> 0 <= r < 256 -> 0 <= g < 256 -> 0 <= b < 256 ->
  let c := to_uchar (Z.lor (Z.lor (Z.shiftr (Z.land r 128) 5)
                                  (Z.shiftr (Z.land g 128) 6))
                           (Z.shiftr (Z.land b 128) 7)) in
  let v := to_uchar
             (if odd then Z.lor (Z.land old 240) (Z.land c 15)
              else Z.lor (Z.land old 15) (Z.land (Z.shiftl c 4) 240)) in
  let c' := to_uchar (if odd then v else Z.shiftr v 4) in
  (if nonzero (Z.land c' 4) then 255 else 0) = 255 * Z.shiftr r 7
  /\ (if nonzero (Z.land c' 2) then 255 else 0) = 255 * Z.shiftr g 7
  /\ (if nonzero (Z.land c' 1) then 255 else 0) = 255 * Z.shiftr b 7.
Proof.
  intros Hold Hr Hg Hb.
  destruct (top_field r Hr) as (_ & _ & _ & _ & -> & Hr1).
  destruct (top_field g Hg) as (_ & _ & _ & _ & -> & Hg1).
  destruct (top_field b Hb) as (_ & _ & _ & _ & -> & Hb1).
  generalize dependent (Z.shiftr r 7). generalize dependent (Z.shiftr g 7).
  generalize dependent (Z.shiftr b 7). intros c Hc e He a Ha.
  assert (H : forall_below 256 (fun old =>
            forall_below3 2 (fun a e c =>
              let k := to_uchar (Z.lor (Z.lor (Z.shiftr (128 * a) 5)
                                              (Z.shiftr (128 * e) 6))
                                       (Z.shiftr (128 * c) 7)) in
              let check (odd : bool) :=
                let v := to_uchar
                           (if odd then Z.lor (Z.land old 240) (Z.land k 15)
                            else Z.lor (Z.land old 15)
                                       (Z.land (Z.shiftl k 4) 240)) in
                let c' := to_uchar (if odd then v else Z.shiftr v 4) in
                ((if nonzero (Z.land c' 4) then 255 else 0) =? 255 * a)
                && ((if nonzero (Z.land c' 2) then 255 else 0) =? 255 * e)
                && ((if nonzero (Z.land c' 1) then 255 else 0) =? 255 * c) in
              check true && check false)) = true)
    by (vm_compute; reflexivity).
  pose proof (forall_below_spec 256 _ H old Hold) as H1. cbv beta in H1.
  pose proof (forall_below3_spec 2 _ H1 a e c Ha He Hc) as Hk.
  cbv beta zeta in Hk.
  apply andb_true_iff in Hk as [Ht Hf].
  cbv zeta. destruct odd.
  - repeat (apply andb_true_iff in Ht as [Ht ?]). lia.
  - repeat (apply andb_true_iff in Hf as [Hf ?]). lia.
Qed.

Lemma agree_top_fields (c : Z) :
  0 <= c < 256 ->
  agree_top 8 c c /\ agree_top 5 (Z.land c 248) c
  /\ agree_top 2 (85 * Z.shiftr c 6) c /\ agree_top 1 (255 * Z.shiftr c 7) c.
Proof.
  intros Hc. unfold agree_top.
  assert (H : forall_below 256 (fun c =>
            (Z.shiftr (Z.land c 248) (8 - 5) =? Z.shiftr c (8 - 5))
            && (Z.shiftr (85 * Z.shiftr c 6) (8 - 2) =? Z.shiftr c (8 - 2))
            && (Z.shiftr (255 * Z.shiftr c 7) (8 - 1) =? Z.shiftr c (8 - 1)))
            = true) by (vm_compute; reflexivity).
  pose proof (forall_below_spec 256 _ H c Hc) as Hb. cbv beta in Hb.
  repeat (apply andb_true_iff in Hb as [Hb ?]).
  repeat split; try reflexivity; lia.
Qed.

Lemma channels_of_pixel (img : XImage) (pixel : Z) :
  default_masks img ->
  to_uchar (Z.land (Z.shiftr (Z.land pixel (red_mask img)) 16) 255)
  = red_of pixel
  /\ to_uchar (Z.land (Z.shiftr (Z.land pixel (green_mask img)) 8) 255)
     = green_of pixel
  /\ to_uchar (Z.land (Z.land pixel (blue_mask img)) 255) = blue_of pixel.
Proof.
  intros (-> & -> & ->).
  rewrite red_of_masked, green_of_masked, blue_of_masked.
  repeat split; apply to_uchar_small; apply land_255_range.
Qed.

(** ** Put, then get *)

Section PutGet.

Variable WORDS_BIGENDIAN : bool.
Variable TkMacOSXRGBPixel : Z -> Z -> Z -> Z.

Lemma get_put_32 (img : XImage) (mem : list Z) (x y pixel : Z) :
  bits_per_pixel img = 32 -> in_buffer img mem x y ->
  exists img',
    ImagePutPixel WORDS_BIGENDIAN (Some img) x y pixel = Done (Some img', 0)
    /\ ImageGetPixel_rgb WORDS_BIGENDIAN (Some img') x y
       = Done (red_of pixel, green_of pixel, blue_of pixel).
Proof.
  intros Hd (Hdata & Hlo & Hhi). rewrite Hd in Hhi. unfold pixel_bytes in Hhi. simpl in Hhi.
  destruct (store32_defined WORDS_BIGENDIAN mem (pixel_offset img x y) pixel)
    as [m Hm]; [lia | lia |].
  exists (set_data img m). unfold ImagePutPixel, ImageGetPixel_rgb.
  rewrite Hdata, Hd. simpl. rewrite Hm. simpl. split; [reflexivity|].
  rewrite Hd. simpl.
  change (pixel_offset (set_data img m) x y) with (pixel_offset img x y).
  rewrite (load32_store32 _ _ _ _ _ Hm). simpl.
  rewrite <- (Z.shiftr_0_r (to_uint pixel)) at 3.
  rewrite !byte_of_to_uint by lia. rewrite Z.shiftr_0_r.
  rewrite !to_uchar_small by apply land_255_range. reflexivity.
Qed.

Lemma get_put_16 (img : XImage) (mem : list Z) (x y pixel : Z) :
  default_masks img ->
  bits_per_pixel img = 16 -> in_buffer img mem x y ->
  exists img',
    ImagePutPixel WORDS_BIGENDIAN (Some img) x y pixel = Done (Some img', 0)
    /\ ImageGetPixel_rgb WORDS_BIGENDIAN (Some img') x y
       = Done (Z.land (red_of pixel) 248, Z.land (green_of pixel) 248,
               Z.land (blue_of pixel) 248).
Proof.
  intros Hmask Hd (Hdata & Hlo & Hhi). rewrite Hd in Hhi. unfold pixel_bytes in Hhi. simpl in Hhi.
  destruct (channels_of_pixel img pixel Hmask) as (Hr & Hg & Hb).
  unfold ImagePutPixel, ImageGetPixel_rgb.
  rewrite Hdata, Hd. simpl. rewrite Hr, Hg, Hb.
  match goal with
  | |- context [store16 _ _ _ ?v] =>
    destruct (store16_defined WORDS_BIGENDIAN mem (pixel_offset img x y) v)
      as [m Hm]; [lia | lia |]
  end.
  exists (set_data img m). rewrite Hm. simpl. split; [reflexivity|].
  rewrite Hd. simpl.
  change (pixel_offset (set_data img m) x y) with (pixel_offset img x y).
  rewrite (load16_store16 _ _ _ _ _ Hm). simpl.
  destruct (rgb16_roundtrip (red_of pixel) (green_of pixel) (blue_of pixel))
    as (-> & -> & ->); try apply land_255_range.
  reflexivity.
Qed.

Lemma get_put_8 (img : XImage) (mem : list Z) (x y pixel : Z) :
  default_masks img ->
  bits_per_pixel img = 8 -> in_buffer img mem x y ->
  exists img',
    ImagePutPixel WORDS_BIGENDIAN (Some img) x y pixel = Done (Some img', 0)
    /\ ImageGetPixel_rgb WORDS_BIGENDIAN (Some img') x y
       = Done (85 * Z.shiftr (red_of pixel) 6,
               85 * Z.shiftr (green_of pixel) 6,
               85 * Z.shiftr (blue_of pixel) 6).
Proof.
  intros Hmask Hd (Hdata & Hlo & Hhi). rewrite Hd in Hhi. unfold pixel_bytes in Hhi. simpl in Hhi.
  destruct (channels_of_pixel img pixel Hmask) as (Hr & Hg & Hb).
  unfold ImagePutPixel, ImageGetPixel_rgb.
  rewrite Hdata, Hd. simpl. rewrite Hr, Hg, Hb.
  match goal with
  | |- context [store8 _ _ ?v] =>
    pose proof (store8_defined mem (pixel_offset img x y) v) as Hm
  end.
  rewrite Hm by lia. eexists. simpl. split; [reflexivity|].
  simpl. rewrite Hd. simpl.
  change (pixel_offset (set_data img _) x y) with (pixel_offset img x y).
  rewrite (load8_store8 _ _ _ _ (Hm ltac:(lia))). simpl.
  destruct (rgb8_roundtrip (red_of pixel) (green_of pixel) (blue_of pixel))
    as (Hr' & Hg' & Hb'); try apply land_255_range.
  cbv beta zeta in Hr', Hg', Hb'. rewrite Hr', Hg', Hb'. reflexivity.
Qed.

Lemma get_put_4 (img : XImage) (mem : list Z) (x y pixel : Z) :
  default_masks img ->
  bits_per_pixel img = 4 -> in_buffer img mem x y ->
  exists img',
    ImagePutPixel WORDS_BIGENDIAN (Some img) x y pixel = Done (Some img', 0)
    /\ ImageGetPixel_rgb WORDS_BIGENDIAN (Some img') x y
       = Done (255 * Z.shiftr (red_of pixel) 7,
               255 * Z.shiftr (green_of pixel) 7,
               255 * Z.shiftr (blue_of pixel) 7).
Proof.
  intros Hmask Hd (Hdata & Hlo & Hhi). rewrite Hd in Hhi. unfold pixel_bytes in Hhi. simpl in Hhi.
  destruct (channels_of_pixel img pixel Hmask) as (Hr & Hg & Hb).
  unfold ImagePutPixel, ImageGetPixel_rgb.
  rewrite Hdata, Hd. simpl. rewrite Hr, Hg, Hb.
  destruct (load8_defined mem (pixel_offset img x y)) as [old Hold]; [lia|].
  rewrite Hold. simpl.
  match goal with
  | |- context [store8 _ _ ?v] =>
    pose proof (store8_defined mem (pixel_offset img x y) v) as Hm
  end.
  rewrite Hm by lia. eexists. simpl. split; [reflexivity|].
  simpl. rewrite Hd. simpl.
  change (pixel_offset (set_data img _) x y) with (pixel_offset img x y).
  rewrite (load8_store8 _ _ _ _ (Hm ltac:(lia))). simpl.
  destruct (rgb4_roundtrip (nonzero (Z.rem x 2)) old (red_of pixel)
              (green_of pixel) (blue_of pixel))
    as (Hr' & Hg' & Hb');
    try apply land_255_range; [exact (load8_range _ _ _ Hold)|].
  cbv beta zeta in Hr', Hg', Hb'. rewrite Hr', Hg', Hb'. reflexivity.
Qed.

(** C1.  Under the default channel masks, at each of the depths 32, 16, 8
    and 4, and for every coordinate whose bytes lie inside the buffer of the
    image, [ImagePutPixel] succeeds and a following [ImageGetPixel] at the
    same coordinate returns the pixel of three 8 bit channels that agree
    with the red, green and blue channels of the written pixel on their top
    8, 5, 2 and 1 bits respectively. *)
Theorem put_then_get_truncates (img : XImage) (mem : list Z) (x y pixel : Z) :
  default_masks img ->
  In (bits_per_pixel img) [32; 16; 8; 4] ->
  in_buffer img mem x y ->
  exists img' r g b,
    ImagePutPixel WORDS_BIGENDIAN (Some img) x y pixel = Done (Some img', 0)
    /\ ImageGetPixel WORDS_BIGENDIAN TkMacOSXRGBPixel (Some img') x y
       = Done (TkMacOSXRGBPixel r g b)
    /\ ImageGetPixel_rgb WORDS_BIGENDIAN (Some img') x y = Done (r, g, b)
    /\ agree_top (channel_bits (bits_per_pixel img)) r (red_of pixel)
    /\ agree_top (channel_bits (bits_per_pixel img)) g (green_of pixel)
    /\ agree_top (channel_bits (bits_per_pixel img)) b (blue_of pixel).
Proof.
  intros Hmask Hd Hbuf.
  pose proof (agree_top_fields _ (land_255_range (Z.shiftr pixel 16)))
    as (Hr8 & Hr5 & Hr2 & Hr1).
  pose proof (agree_top_fields _ (land_255_range (Z.shiftr pixel 8)))
    as (Hg8 & Hg5 & Hg2 & Hg1).
  pose proof (agree_top_fields _ (land_255_range pixel))
    as (Hb8 & Hb5 & Hb2 & Hb1).
  fold (red_of pixel) in Hr8, Hr5, Hr2, Hr1.
  fold (green_of pixel) in Hg8, Hg5, Hg2, Hg1.
  fold (blue_of pixel) in Hb8, Hb5, Hb2, Hb1.
  destruct Hd as [Hd | [Hd | [Hd | [Hd | []]]]]; symmetry in Hd.
  - destruct (get_put_32 img mem x y pixel Hd Hbuf) as (img' & Hput & Hget).
    exists img', (red_of pixel), (green_of pixel), (blue_of pixel).
    unfold ImageGetPixel. rewrite Hget, Hd. simpl. auto 10.
  - destruct (get_put_16 img mem x y pixel Hmask Hd Hbuf)
      as (img' & Hput & Hget).
    exists img', (Z.land (red_of pixel) 248), (Z.land (green_of pixel) 248),
      (Z.land (blue_of pixel) 248).
    unfold ImageGetPixel. rewrite Hget, Hd. simpl. auto 10.
  - destruct (get_put_8 img mem x y pixel Hmask Hd Hbuf)
      as (img' & Hput & Hget).
    exists img', (85 * Z.shiftr (red_of pixel) 6),
      (85 * Z.shiftr (green_of pixel) 6), (85 * Z.shiftr (blue_of pixel) 6).
    unfold ImageGetPixel. rewrite Hget, Hd. simpl. auto 10.
  - destruct (get_put_4 img mem x y pixel Hmask Hd Hbuf)
      as (img' & Hput & Hget).
    exists img', (255 * Z.shiftr (red_of pixel) 7),
      (255 * Z.shiftr (green_of pixel) 7), (255 * Z.shiftr (blue_of pixel) 7).
    unfold ImageGetPixel. rewrite Hget, Hd. simpl. auto 10.
Qed.

End PutGet.

(** ** The rule of [ImageGetPixel] at each depth *)

Lemma load16_range (E : bool) (mem : list Z) (off w : Z) :
  load16 E mem off = Done w -> 0 <= w < 65536.
Proof.
  unfold load16. intros H.
  destruct (load8 mem off) as [b0|] eqn:H0; simpl in H; [|discriminate].
  destruct (load8 mem (off + 1)) as [b1|] eqn:H1; simpl in H; [|discriminate].
  apply load8_range in H0, H1.
  assert (Hall : forall_below 256 (fun hi => forall_below 256 (fun lo =>
            Z.lor (Z.shiftl hi 8) lo <? 65536)) = true)
    by (vm_compute; reflexivity).
  assert (Hb : forall hi lo, 0 <= hi < 256 -> 0 <= lo < 256 ->
               0 <= Z.lor (Z.shiftl hi 8) lo < 65536).
  { intros hi lo Hhi Hlo.
    pose proof (forall_below_spec 256 _ Hall hi Hhi) as H2. cbv beta in H2.
    pose proof (forall_below_spec 256 _ H2 lo Hlo) as H3. cbv beta in H3.
    split; [|lia]. apply Z.lor_nonneg. split; [|lia].
    apply Z.shiftl_nonneg. lia. }
  injection H as <-. destruct E; apply Hb; assumption.
Qed.

Lemma unpack32 (w : Z) :
  to_uchar (Z.land (Z.shiftr w 16) 255) = (w / 65536) mod 256
  /\ to_uchar (Z.land (Z.shiftr w 8) 255) = (w / 256) mod 256
  /\ to_uchar (Z.land w 255) = w mod 256.
Proof.
  unfold to_uchar. change 255 with (Z.ones 8).
  rewrite !Z.land_ones, !Z.shiftr_div_pow2 by lia.
  change (2 ^ 8) with 256. change (2 ^ 16) with 65536.
  rewrite !Z.mod_mod by lia. auto.
Qed.

Lemma unpack16 (w : Z) :
  0 <= w < 65536 ->
  to_uchar (Z.land (Z.shiftr w 7) 248) = 8 * ((w / 1024) mod 32)
  /\ to_uchar (Z.land (Z.shiftr w 2) 248) = 8 * ((w / 32) mod 32)
  /\ to_uchar (Z.land (Z.shiftl w 3) 248) = 8 * (w mod 32).
Proof.
  intros Hw.
  assert (H : forall_below 64 (fun a => forall_below 32 (fun b =>
            forall_below 32 (fun c =>
              let w := 1024 * a + 32 * b + c in
              (to_uchar (Z.land (Z.shiftr w 7) 248) =? 8 * ((w / 1024) mod 32))
              && (to_uchar (Z.land (Z.shiftr w 2) 248) =? 8 * ((w / 32) mod 32))
              && (to_uchar (Z.land (Z.shiftl w 3) 248) =? 8 * (w mod 32)))))
            = true) by (vm_compute; reflexivity).
  assert (Ha : 0 <= w / 1024 < 64)
    by (split; [apply Z.div_pos; lia | apply Z.div_lt_upper_bound; lia]).
  assert (Hb : 0 <= (w / 32) mod 32 < 32) by (apply Z.mod_pos_bound; lia).
  assert (Hc : 0 <= w mod 32 < 32) by (apply Z.mod_pos_bound; lia).
  pose proof (forall_below_spec 64 _ H (w / 1024) Ha) as H1. cbv beta in H1.
  pose proof (forall_below_spec 32 _ H1 ((w / 32) mod 32) Hb) as H2.
  cbv beta in H2.
  pose proof (forall_below_spec 32 _ H2 (w mod 32) Hc) as H3.
  cbv beta zeta in H3.
  assert (Hdd : w / 1024 = w / 32 / 32)
    by (rewrite Z.div_div by lia; reflexivity).
  replace (1024 * (w / 1024) + 32 * ((w / 32) mod 32) + w mod 32) with w
    in H3
    by (rewrite Hdd; pose proof (Z.div_mod w 32);
        pose proof (Z.div_mod (w / 32) 32); lia).
  repeat (apply andb_true_iff in H3 as [H3 ?]).
  repeat split; apply Z.eqb_eq; assumption.
Qed.

Lemma unpack8 (v : Z) :
  0 <= v < 256 ->
  let spread (c : Z) :=
    to_uchar (Z.lor c (Z.lor (Z.lor (Z.shiftr c 2) (Z.shiftr c 4))
                             (Z.shiftr c 6))) in
  spread (to_uchar (Z.land (Z.shiftl v 2) 192)) = 85 * ((v / 16) mod 4)
  /\ spread (to_uchar (Z.land (Z.shiftl v 4) 192)) = 85 * ((v / 4) mod 4)
  /\ spread (to_uchar (Z.land (Z.shiftl v 6) 192)) = 85 * (v mod 4).
Proof.
  intros Hv.
  assert (H : forall_below 256 (fun v =>
            let spread (c : Z) :=
              to_uchar (Z.lor c (Z.lor (Z.lor (Z.shiftr c 2) (Z.shiftr c 4))
                                       (Z.shiftr c 6))) in
            (spread (to_uchar (Z.land (Z.shiftl v 2) 192))
             =? 85 * ((v / 16) mod 4))
            && (spread (to_uchar (Z.land (Z.shiftl v 4) 192))
                =? 85 * ((v / 4) mod 4))
            && (spread (to_uchar (Z.land (Z.shiftl v 6) 192))
                =? 85 * (v mod 4))) = true) by (vm_compute; reflexivity).
  pose proof (forall_below_spec 256 _ H v Hv) as Hb. cbv beta zeta in Hb.
  repeat (apply andb_true_iff in Hb as [Hb ?]).
  cbv beta zeta. repeat split; apply Z.eqb_eq; assumption.
Qed.

Lemma unpack4 (odd : bool) (v : Z) :
  0 <= v < 256 ->
  let c := to_uchar (if odd then v else Z.shiftr v 4) in
  let nibble := if odd then v mod 16 else v / 16 in
  nonzero (Z.land c 4) = Z.testbit nibble 2
  /\ nonzero (Z.land c 2) = Z.testbit nibble 1
  /\ nonzero (Z.land c 1) = Z.testbit nibble 0.
Proof.
  intros Hv.
  assert (H : forall_below 256 (fun v =>
            let check (odd : bool) :=
              let c := to_uchar (if odd then v else Z.shiftr v 4) in
              let nibble := if odd then v mod 16 else v / 16 in
              Bool.eqb (nonzero (Z.land c 4)) (Z.testbit nibble 2)
              && Bool.eqb (nonzero (Z.land c 2)) (Z.testbit nibble 1)
              && Bool.eqb (nonzero (Z.land c 1)) (Z.testbit nibble 0) in
            check true && check false) = true) by (vm_compute; reflexivity).
  pose proof (forall_below_spec 256 _ H v Hv) as Hb. cbv beta zeta in Hb.
  apply andb_true_iff in Hb as [Ht Hf]. cbv zeta.
  destruct odd.
  - repeat (apply andb_true_iff in Ht as [Ht ?]).
    repeat split; apply Bool.eqb_prop; assumption.
  - repeat (apply andb_true_iff in Hf as [Hf ?]).
    repeat split; apply Bool.eqb_prop; assumption.
Qed.

Lemma unpack1 (v k : Z) :
  0 <= v < 256 -> 0 <= k < 8 ->
  nonzero (Z.land v (Z.shiftr 128 k)) = Z.testbit v (7 - k).
Proof.
  intros Hv Hk.
  assert (H : forall_below 256 (fun v => forall_below 8 (fun k =>
            Bool.eqb (nonzero (Z.land v (Z.shiftr 128 k)))
                     (Z.testbit v (7 - k)))) = true)
    by (vm_compute; reflexivity).
  pose proof (forall_below_spec 256 _ H v Hv) as H1. cbv beta in H1.
  pose proof (forall_below_spec 8 _ H1 k Hk) as H2. cbv beta in H2.
  apply Bool.eqb_prop. exact H2.
Qed.

Lemma rem2_odd (x : Z) : nonzero (Z.rem x 2) = Z.odd x.
Proof.
  unfold nonzero. rewrite <- Z.negb_even.
  f_equal. destruct (Z.eqb_spec (Z.rem x 2) 0) as [H|H].
  - symmetry. apply Z.even_spec. apply Z.rem_divide in H; [|lia].
    destruct H as [k ->]. exists k. lia.
  - destruct (Z.even x) eqn:He; [|reflexivity].
    apply Z.even_spec in He as [k ->]. exfalso. apply H.
    rewrite Z.mul_comm. apply Z.rem_mul. lia.
Qed.

Section GetRule.

Variable WORDS_BIGENDIAN : bool.
Variable TkMacOSXRGBPixel : Z -> Z -> Z -> Z.

(** C2.  With a buffer present, [ImageGetPixel] turns what it reads at the
    pixel's offset into 8 bit channels by a rule fixed per depth: at depth
    32 the bytes of the word (bits 23-16, 15-8, 7-0); at depth 16 each 5 bit
    field times 8; at depth 8 each 2 bit field times 85; at depth 4 the
    three low bits of the pixel's nibble give 255 or 0; at depth 1 the
    addressed bit gives 255 or 0 on all three channels; and at every other
    depth the channels are 0. *)
Theorem ImageGetPixel_rule (img : XImage) (mem : list Z) (x y : Z) :
  data img = Some mem ->
  let off := pixel_offset img x y in
  let get := ImageGetPixel_rgb WORDS_BIGENDIAN (Some img) x y in
  let full (set : bool) : Z := if set then 255 else 0 in
  (bits_per_pixel img = 32 ->
   forall w, load32 WORDS_BIGENDIAN mem off = Done w ->
     get = Done ((w / 65536) mod 256, (w / 256) mod 256, w mod 256))
  /\ (bits_per_pixel img = 16 ->
      forall w, load16 WORDS_BIGENDIAN mem off = Done w ->
        get = Done (8 * ((w / 1024) mod 32), 8 * ((w / 32) mod 32),
                    8 * (w mod 32)))
  /\ (bits_per_pixel img = 8 ->
      forall v, load8 mem off = Done v ->
        get = Done (85 * ((v / 16) mod 4), 85 * ((v / 4) mod 4),
                    85 * (v mod 4)))
  /\ (bits_per_pixel img = 4 ->
      forall v, load8 mem off = Done v ->
        let nibble := if Z.odd x then v mod 16 else v / 16 in
        get = Done (full (Z.testbit nibble 2), full (Z.testbit nibble 1),
                    full (Z.testbit nibble 0)))
  /\ (bits_per_pixel img = 1 -> 0 <= x ->
      forall v, load8 mem off = Done v ->
        let c := full (Z.testbit v (7 - x mod 8)) in
        get = Done (c, c, c))
  /\ (supported_depth (bits_per_pixel img) = false -> get = Done (0, 0, 0))
  /\ forall r g b, get = Done (r, g, b) ->
       ImageGetPixel WORDS_BIGENDIAN TkMacOSXRGBPixel (Some img) x y
       = Done (TkMacOSXRGBPixel r g b).
Proof.
  intros Hdata off get full. subst get off.
  unfold ImageGetPixel, ImageGetPixel_rgb. rewrite Hdata.
  repeat split.
  - intros -> w Hw. simpl. rewrite Hw. simpl.
    destruct (unpack32 w) as (-> & -> & ->). reflexivity.
  - intros -> w Hw. simpl. rewrite Hw. simpl.
    destruct (unpack16 w (load16_range _ _ _ _ Hw)) as (-> & -> & ->).
    reflexivity.
  - intros -> v Hv. simpl. rewrite Hv. simpl.
    destruct (unpack8 v (load8_range _ _ _ Hv)) as (H1 & H2 & H3).
    cbv beta zeta in H1, H2, H3. rewrite H1, H2, H3. reflexivity.
  - intros -> v Hv. simpl. rewrite Hv. simpl.
    destruct (unpack4 (Z.odd x) v (load8_range _ _ _ Hv)) as (H1 & H2 & H3).
    cbv zeta in H1, H2, H3. rewrite rem2_odd, H1, H2, H3. reflexivity.
  - intros -> Hx v Hv. simpl. rewrite Hv. simpl.
    rewrite Z.rem_mod_nonneg by lia.
    rewrite (unpack1 v (x mod 8) (load8_range _ _ _ Hv))
      by (apply Z.mod_pos_bound; lia).
    reflexivity.
  - unfold supported_depth. intros H.
    repeat (apply orb_false_iff in H as [H ?]).
    repeat match goal with
           | Heq : (_ =? _) = false |- _ => rewrite Heq; clear Heq
           end.
    reflexivity.
  - intros r g b ->. reflexivity.
Qed.

(** C10.  With a [NULL] image or data pointer, or a depth other than 1, 4,
    8, 16 and 32, [ImageGetPixel] returns [TkMacOSXRGBPixel(0, 0, 0)] at
    every coordinate without touching the buffer; with a [NULL] image or
    data pointer [ImagePutPixel] returns 0 and leaves the image as it
    was. *)
Theorem ImageGetPixel_defaults_to_black (image : option XImage) (x y pixel : Z) :
  (no_buffer image \/ unsupported_depth image ->
   ImageGetPixel WORDS_BIGENDIAN TkMacOSXRGBPixel image x y
   = Done (TkMacOSXRGBPixel 0 0 0))
  /\ (no_buffer image ->
      ImagePutPixel WORDS_BIGENDIAN image x y pixel = Done (image, 0)).
Proof.
  split.
  - intros [Hnull | Hdepth].
    + destruct image as [img|]; [|reflexivity].
      simpl in Hnull. unfold ImageGetPixel, ImageGetPixel_rgb.
      rewrite Hnull. reflexivity.
    + destruct image as [img|]; [|contradiction].
      simpl in Hdepth. unfold supported_depth in Hdepth.
      repeat (apply orb_false_iff in Hdepth as [Hdepth ?]).
      unfold ImageGetPixel, ImageGetPixel_rgb.
      destruct (data img); [|reflexivity].
      repeat match goal with
             | Heq : (_ =? _) = false |- _ => rewrite Heq; clear Heq
             end.
      reflexivity.
  - intros Hnull. destruct image as [img|]; [|reflexivity].
    simpl in Hnull. unfold ImagePutPixel. rewrite Hnull. reflexivity.
Qed.

End GetRule.

(** ** The stride of [XCreateImage] *)

Lemma to_int_small (z : Z) :
  -2147483648 <= z < 2147483648 -> to_int z = z.
Proof. intros H. unfold to_int. rewrite Z.mod_small by lia. lia. Qed.

Lemma to_uint_small (z : Z) : 0 <= z < 4294967296 -> to_uint z = z.
Proof. intros H. unfold to_uint. apply Z.mod_small. exact H. Qed.

Lemma to_size_t_small (z : Z) :
  0 <= z < 18446744073709551616 -> to_size_t z = z.
Proof. intros H. unfold to_size_t. apply Z.mod_small. exact H. Qed.

(** Masking with the complement of [2 ^ j - 1] rounds down to a multiple of
    [2 ^ j]. *)
Lemma land_round_down (X j : Z) :
  0 <= X < 4294967296 -> 0 <= j <= 31 ->
  Z.land X (to_uint (Z.lnot (Z.ones j))) = 2 ^ j * (X / 2 ^ j).
Proof.
  intros HX Hj. unfold to_uint. change 4294967296 with (2 ^ 32).
  rewrite <- Z.land_ones by lia.
  rewrite (Z.land_comm (Z.lnot _)), Z.land_assoc.
  rewrite (Z.land_ones X 32) by lia.
  rewrite (Z.mod_small X) by (change (2 ^ 32) with 4294967296; lia).
  rewrite <- Z.ldiff_land, Z.ldiff_ones_r by lia.
  rewrite Z.shiftl_mul_pow2, Z.shiftr_div_pow2 by lia. lia.
Qed.

Lemma pow2_bounds (k : Z) : 3 <= k <= 30 ->
  2 ^ k = 8 * 2 ^ (k - 3) /\ 1 <= 2 ^ (k - 3) <= 134217728.
Proof.
  intros Hk. split.
  - replace k with (3 + (k - 3)) at 1 by lia.
    rewrite Z.pow_add_r by lia. reflexivity.
  - split.
    + pose proof (Z.pow_pos_nonneg 2 (k - 3)). lia.
    + change 134217728 with (2 ^ 27). apply Z.pow_le_mono_r; lia.
Qed.

Lemma stride_formula (bits k : Z) :
  0 <= bits < 4294967296 -> 3 <= k <= 30 ->
  let pad := 2 ^ k in
  let S := to_uint (bits + to_uint (to_int (pad - 1))) in
  to_int (Z.land (Z.shiftr S 3)
                 (to_uint (Z.lnot (to_int (Z.shiftr pad 3 - 1)))))
  = 2 ^ (k - 3) * (S / 8 / 2 ^ (k - 3))
  /\ 0 <= 2 ^ (k - 3) * (S / 8 / 2 ^ (k - 3)) < 536870912.
Proof.
  intros Hbits Hk pad S.
  destruct (pow2_bounds k Hk) as (Hpad & Hu).
  assert (HS : 0 <= S < 4294967296)
    by (unfold S, to_uint; apply Z.mod_pos_bound; lia).
  assert (HX : 0 <= S / 8 < 536870912)
    by (split; [apply Z.div_pos; lia | apply Z.div_lt_upper_bound; lia]).
  assert (Hsh : Z.shiftr pad 3 - 1 = Z.ones (k - 3)).
  { unfold pad. rewrite Z.shiftr_div_pow2 by lia. rewrite Hpad.
    change (2 ^ 3) with 8. rewrite Z.mul_comm, Z.div_mul by lia.
    rewrite Z.ones_equiv. lia. }
  rewrite Hsh. rewrite (to_int_small (Z.ones (k - 3)))
    by (rewrite Z.ones_equiv; lia).
  rewrite Z.shiftr_div_pow2 by lia. change (2 ^ 3) with 8.
  rewrite land_round_down by lia.
  assert (Hq : 0 <= 2 ^ (k - 3) * (S / 8 / 2 ^ (k - 3)) <= S / 8).
  { split.
    - apply Z.mul_nonneg_nonneg; [lia|]. apply Z.div_pos; lia.
    - apply Z.mul_div_le. lia. }
  split; [apply to_int_small; lia | lia].
Qed.

Section Stride.

Variable WORDS_BIGENDIAN : bool.

(** C3, as the code has it.  For an [XCreateImage] call with a zero
    [bytes_per_line] and a [bitmap_pad] that is zero (then 128) or a power
    of two from 8 on, the stride of the image is a multiple of
    [bitmap_pad / 8]; it holds a row of [width] pixels whenever
    [width * bits_per_pixel + bitmap_pad - 1] fits the 32 bit unsigned
    arithmetic of the computation; and the length used for the copy to a
    native image is [bytes_per_line * height] whenever that product fits an
    [int]. *)
Theorem XCreateImage_stride (display : Display) (depth format offset : Z)
  (data : option (list Z)) (w h pad : Z) :
  0 <= w < 4294967296 ->
  0 <= h < 4294967296 ->
  pad_argument pad ->
  let image := snd (XCreateImage WORDS_BIGENDIAN display depth format offset
                      data w h pad 0) in
  bitmap_pad image = (if pad =? 0 then 128 else pad)
  /\ (bitmap_pad image / 8 | bytes_per_line image)
  /\ (w * bits_per_pixel image + bitmap_pad image - 1 < 4294967296 ->
      bytes_for (w * bits_per_pixel image) <= bytes_per_line image)
  /\ (h < 2147483648 -> bytes_per_line image * h < 2147483648 ->
      CGImage_len image = bytes_per_line image * h).
Proof.
  intros Hw Hh Hpad image.
  set (P := if pad =? 0 then 128 else pad).
  assert (HP : exists k, 3 <= k <= 30 /\ P = 2 ^ k).
  { unfold P. destruct Hpad as [-> | (k & Hk & ->)].
    - exists 7. split; [lia | reflexivity].
    - exists k. destruct (pow2_bounds k Hk) as (Heq & Hu).
      destruct (Z.eqb_spec (2 ^ k) 0); [lia | auto]. }
  destruct HP as (k & Hk & HPk).
  set (bpp := if format =? ZPixmap then 32 else 1).
  assert (Hbpp : bpp = 32 \/ bpp = 1)
    by (unfold bpp; destruct (format =? ZPixmap); auto).
  assert (Hpadfield : bitmap_pad image = P).
  { unfold image, XCreateImage, P, nonzero. simpl.
    destruct (pad =? 0); reflexivity. }
  assert (Hbppfield : bits_per_pixel image = bpp) by reflexivity.
  assert (Hstride : bytes_per_line image =
            to_int (Z.land
              (Z.shiftr (to_uint (to_uint (w * bpp)
                                  + to_uint (to_int (2 ^ k - 1)))) 3)
              (to_uint (Z.lnot (to_int (Z.shiftr (2 ^ k) 3 - 1)))))).
  { rewrite <- HPk. unfold image, XCreateImage, P, nonzero. simpl.
    destruct (pad =? 0); reflexivity. }
  assert (Hbits : 0 <= to_uint (w * bpp) < 4294967296)
    by (unfold to_uint; apply Z.mod_pos_bound; lia).
  destruct (stride_formula (to_uint (w * bpp)) k Hbits Hk) as (Hval & Hrange).
  cbv zeta in Hval, Hrange. rewrite Hval in Hstride.
  destruct (pow2_bounds k Hk) as (Hpow & Hu).
  rewrite Hpadfield, Hbppfield, HPk.
  assert (Hunit : 2 ^ k / 8 = 2 ^ (k - 3))
    by (rewrite Hpow, Z.mul_comm, Z.div_mul by lia; reflexivity).
  split; [reflexivity|]. split; [|split].
  - rewrite Hunit, Hstride. apply Z.divide_factor_l.
  - intros Hfit. rewrite Hstride. unfold bytes_for.
    assert (HB : 0 <= w * bpp) by (destruct Hbpp as [-> | ->]; lia).
    rewrite (to_uint_small (w * bpp)) by lia.
    rewrite (to_int_small (2 ^ k - 1)) by lia.
    rewrite (to_uint_small (2 ^ k - 1)) by lia.
    rewrite (to_uint_small (w * bpp + (2 ^ k - 1))) by lia.
    rewrite Z.div_div by lia. rewrite <- Hpow.
    set (B := w * bpp) in *. set (u := 2 ^ (k - 3)) in *.
    pose proof (Z.div_mod (B + (2 ^ k - 1)) (2 ^ k) ltac:(lia)) as Hdm.
    pose proof (Z.mod_pos_bound (B + (2 ^ k - 1)) (2 ^ k) ltac:(lia)) as Hr.
    rewrite Hpow in Hdm at 2.
    replace (8 * u * ((B + (2 ^ k - 1)) / 2 ^ k))
      with (8 * (u * ((B + (2 ^ k - 1)) / 2 ^ k))) in Hdm by ring.
    generalize dependent (u * ((B + (2 ^ k - 1)) / 2 ^ k)). intros t Hdm.
    assert ((B + 7) / 8 < t + 1) by (apply Z.div_lt_upper_bound; lia). lia.
  - intros Hh31 Hprod. unfold CGImage_len.
    change (height image) with (to_int h).
    rewrite (to_int_small h) by lia.
    rewrite Hstride in *.
    assert (0 <= 2 ^ (k - 3) * (to_uint (to_uint (w * bpp)
               + to_uint (to_int (2 ^ k - 1))) / 8 / 2 ^ (k - 3)) * h)
      by (apply Z.mul_nonneg_nonneg; lia).
    rewrite to_int_small by lia. apply to_size_t_small. lia.
Qed.

End Stride.

(** ** Conversion to a native image *)

Section NativeImage.

Variables CGDataProviderRef CGImageRef CGColorSpaceRef : Type.
Variable xBitReverseTable : Z -> Z.
Variable CGDataProviderCreateWithData : list Z -> Z -> option CGDataProviderRef.
Variable CGImageMaskCreate :
  Z -> Z -> Z -> Z -> Z -> CGDataProviderRef -> option (list Z) -> bool ->
  option CGImageRef.
Variable CGColorSpaceCreateDeviceRGB : option CGColorSpaceRef.
Variable CGImageCreate :
  Z -> Z -> Z -> Z -> Z -> option CGColorSpaceRef -> Z -> CGDataProviderRef ->
  option (list Z) -> bool -> Z -> option CGImageRef.

Local Abbreviation create :=
  (TkMacOSXCreateCGImageWithXImage CGDataProviderRef CGImageRef
     CGColorSpaceRef xBitReverseTable CGDataProviderCreateWithData
     CGImageMaskCreate CGColorSpaceCreateDeviceRGB CGImageCreate).

(** C9.  [TkMacOSXCreateCGImageWithXImage] returns [NULL], without reading
    the buffer, for an image whose depth is neither 1 nor 32, for a 32 bit
    image that is not a ZPixmap, and for a 32 bit ZPixmap of width and
    height zero; whenever it returns an image, the XImage is a 1 bit bitmap
    or a 32 bit ZPixmap with a nonzero dimension. *)
Theorem CreateCGImage_NULL (image : XImage) (alphaInfo : Z) :
  (bits_per_pixel image <> 1 -> bits_per_pixel image <> 32 ->
   create image alphaInfo = Done None)
  /\ (bits_per_pixel image = 32 -> format image <> ZPixmap ->
      create image alphaInfo = Done None)
  /\ (bits_per_pixel image = 32 -> format image = ZPixmap ->
      width image = 0 -> height image = 0 ->
      create image alphaInfo = Done None)
  /\ (forall native, create image alphaInfo = Done (Some native) ->
      bits_per_pixel image = 1
      \/ (bits_per_pixel image = 32 /\ format image = ZPixmap
          /\ ~ (width image = 0 /\ height image = 0))).
Proof.
  unfold TkMacOSXCreateCGImageWithXImage.
  repeat split.
  - intros H1 H32.
    destruct (Z.eqb_spec (bits_per_pixel image) 1); [contradiction|].
    destruct (Z.eqb_spec (bits_per_pixel image) 32); [contradiction|].
    rewrite andb_false_r. reflexivity.
  - intros H32 Hfmt. rewrite H32. simpl.
    destruct (Z.eqb_spec (format image) ZPixmap); [contradiction|].
    reflexivity.
  - intros H32 Hfmt Hw Hh. rewrite H32, Hfmt, Hw, Hh. reflexivity.
  - intros native H.
    destruct (Z.eqb_spec (bits_per_pixel image) 1) as [|H1]; [left; assumption|].
    right.
    destruct (Z.eqb_spec (format image) ZPixmap) as [Hfmt|];
      [|discriminate].
    destruct (Z.eqb_spec (bits_per_pixel image) 32) as [H32|];
      [|discriminate].
    simpl in H.
    destruct (Z.eqb_spec (width image) 0) as [Hw|Hw];
      destruct (Z.eqb_spec (height image) 0) as [Hh|Hh];
      simpl in H; try discriminate; repeat split; auto; intros []; auto.
Qed.

End NativeImage.

(** ** Instances of an nsimage *)

Section Instances.

Import NS.

Lemma ckalloc_fresh (h : gmap nat cell) (c : cell) :
  h !! (ckalloc h c).1 = None.
Proof.
  unfold ckalloc. simpl. apply not_elem_of_dom. apply is_fresh.
Qed.

(** C8.  The instance [TkNSImageGet] allocates is a new block whose
    [masterPtr] is the master it was called with, and no other block
    changes; [TkNSImageFree] releases the block of its instance and leaves
    every other block as it was, so the master of the instance, with all
    its fields, and every other instance stay. *)
Theorem instance_refers_free_is_local (h : gmap nat cell)
  (tkwin display : Z) (master : nat) :
  let inst := (TkNSImageGet h tkwin master).1 in
  let h1 := (TkNSImageGet h tkwin master).2 in
  h !! inst = None
  /\ (exists i, h1 !! inst = Some (InstanceCell i) /\ masterPtr i = master)
  /\ (forall p, p <> inst -> h1 !! p = h !! p)
  /\ TkNSImageFree h1 inst display = h
  /\ (forall (h2 : gmap nat cell) victim,
        TkNSImageFree h2 victim display !! victim = None
        /\ forall p, p <> victim ->
             TkNSImageFree h2 victim display !! p = h2 !! p)
  /\ (forall (h2 : gmap nat cell) victim i m,
        h2 !! victim = Some (InstanceCell i) ->
        h2 !! masterPtr i = Some (MasterCell m) ->
        TkNSImageFree h2 victim display !! masterPtr i = Some (MasterCell m)).
Proof.
  intros inst h1.
  assert (Hfresh : h !! inst = None) by apply ckalloc_fresh.
  split; [exact Hfresh|]. split; [|split; [|split; [|split]]].
  - eexists. split; [apply lookup_insert_eq | reflexivity].
  - intros p Hp. unfold h1, TkNSImageGet, ckalloc. simpl.
    apply lookup_insert_ne. auto.
  - unfold h1, TkNSImageFree, ckfree, TkNSImageGet, ckalloc. simpl.
    rewrite delete_insert_eq. apply delete_id. exact Hfresh.
  - intros h2 victim. unfold TkNSImageFree, ckfree. split.
    + apply lookup_delete_eq.
    + intros p Hp. apply lookup_delete_ne. auto.
  - intros h2 victim i m Hi Hm. unfold TkNSImageFree, ckfree.
    rewrite lookup_delete_ne; [exact Hm|].
    intros Heq. rewrite Heq in Hi. congruence.
Qed.

End Instances.

(** ** The [-as] option *)

Lemma as_lookup (key : string) :
  match Tcl_GetIndexFromObj (Some key) NS.sourceInterpretations 0 with
  | None => as_accepted key = false
  | Some idx =>
    as_accepted key = true /\ 0 <= idx
    /\ exists entry,
         NS.sourceInterpretations !! Z.to_nat idx = Some entry
         /\ String.prefix key entry = true
         /\ (In key NS.sourceInterpretations -> entry = key)
  end.
Proof.
  unfold Tcl_GetIndexFromObj, as_accepted, NS.sourceInterpretations.
  cbn [default from_option id scan_table existsb List.filter].
  destruct (String.eqb_spec key "name") as [-> | H1];
    [simpl; repeat split; try lia; eexists; simpl; eauto|].
  destruct (String.eqb_spec key "file") as [-> | H2];
    [simpl; repeat split; try lia; eexists; simpl; eauto|].
  destruct (String.eqb_spec key "path") as [-> | H3];
    [simpl; repeat split; try lia; eexists; simpl; eauto|].
  destruct (String.eqb_spec key "filetype") as [-> | H4];
    [simpl; repeat split; try lia; eexists; simpl; eauto|].
  assert (Hnot : ~ In key ["name"; "file"; "path"; "filetype"]%string)
    by (simpl; intuition congruence).
  destruct (String.prefix key "name") eqn:P1;
    destruct (String.prefix key "file") eqn:P2;
    destruct (String.prefix key "path") eqn:P3;
    destruct (String.prefix key "filetype") eqn:P4;
    destruct (String.eqb key "") eqn:Hempty; simpl; try reflexivity;
    (split; [reflexivity|]); (split; [lia|]);
    eexists; simpl; (split; [reflexivity|]); split; auto; contradiction.
Qed.

(** ** Configuring and displaying an nsimage *)

Section NSImageType.

Import NS.

Variable Tk_SetOptions :
  Interp -> TkNSImageMaster -> list string -> Z * Interp * TkNSImageMaster.
Variable imageNamed : string -> option NSImage.
Variable initWithContentsOfFile : string -> option NSImage.
Variable iconForFile : string -> option NSImage.
Variable iconForFileType : string -> option NSImage.
Variable CGContextRef : Type.
Variable TkMacOSXInDarkMode : Z -> bool.
Variable TkMacOSXSetupDrawingContext :
  MacDrawable -> option (option CGContextRef).

Local Abbreviation configure :=
  (TkNSImageConfigureMaster Tk_SetOptions imageNamed initWithContentsOfFile
     iconForFile iconForFileType).
Local Abbreviation display :=
  (TkNSImageDisplay CGContextRef TkMacOSXInDarkMode
     TkMacOSXSetupDrawingContext).
Local Abbreviation resolve :=
  (resolve_by imageNamed initWithContentsOfFile iconForFile iconForFileType).

(** What [TkNSImageConfigureMaster] returns once the options are parsed,
    the source is not refused, and the interpretation has index [idx]. *)
Lemma configure_dispatch (interp : Interp) (m : TkNSImageMaster)
  (objv : list string) (i1 : Interp) (m1 : TkNSImageMaster) (idx : Z)
  (entry : string) :
  Tk_SetOptions interp m objv = (TCL_OK, i1, m1) ->
  source_refused (source m1) = false ->
  Tcl_GetIndexFromObj (as_ m1) sourceInterpretations 0 = Some idx ->
  sourceInterpretations !! Z.to_nat idx = Some entry -> 0 <= idx ->
  match resolve entry (default ""%string (source m1)) with
  | None =>
    configure interp m objv
    = (TCL_ERROR,
       Tcl_SetErrorCode (Tcl_SetObjResult i1 msg_unknown_image) BAD_VALUE,
       m1, [])
  | Some img =>
    exists light dark m',
      configure interp m objv
      = (TCL_OK, i1, m',
         [mkImageChanged (tkMaster m1) ((0, 0), (width m1, height m1))
            (width m1, height m1)])
      /\ image m' = Some light /\ darkModeImage m' = Some dark
      /\ origin light = origin img /\ origin dark = origin img
      /\ width m' = width m1 /\ height m' = height m1
      /\ pressed m' = pressed m1 /\ alpha m' = alpha m1
      /\ source m' = source m1 /\ as_ m' = as_ m1
  end.
Proof.
  intros Hset Hsrc Hidx Hentry Hpos.
  unfold TkNSImageConfigureMaster. rewrite Hset. simpl. rewrite Hsrc, Hidx.
  assert (Hcases : (idx = 0 /\ entry = "name"%string)
                   \/ (idx = 1 /\ entry = "file"%string)
                   \/ (idx = 2 /\ entry = "path"%string)
                   \/ (idx = 3 /\ entry = "filetype"%string)).
  { destruct (Z.to_nat idx) as [|[|[|[|n]]]] eqn:Hn; simpl in Hentry;
      try discriminate; injection Hentry as <-;
      [left | right; left | right; right; left | right; right; right];
      split; try reflexivity; lia. }
  destruct Hcases as [[-> ->] | [[-> ->] | [[-> ->] | [-> ->]]]];
    unfold resolve_by; simpl.
  - destruct (imageNamed _) as [[o e t p]|]; simpl; [|reflexivity].
    destruct t; [|destruct (pressed m1)]; simpl;
      do 3 eexists; (split; [reflexivity|]); simpl; auto 12.
  - destruct (initWithContentsOfFile _) as [[o e t p]|]; simpl; [|reflexivity].
    destruct t; [|destruct (pressed m1)]; simpl;
      do 3 eexists; (split; [reflexivity|]); simpl; auto 12.
  - destruct (iconForFile _) as [[o e t p]|]; simpl; [|reflexivity].
    destruct t; [|destruct (pressed m1)]; simpl;
      do 3 eexists; (split; [reflexivity|]); simpl; auto 12.
  - destruct (iconForFileType _) as [[o e t p]|]; simpl; [|reflexivity].
    destruct t; [|destruct (pressed m1)]; simpl;
      do 3 eexists; (split; [reflexivity|]); simpl; auto 12.
Qed.

Lemma GetIndex_default (objPtr : option string) (table : list string)
  (flags : Z) :
  Tcl_GetIndexFromObj objPtr table flags
  = Tcl_GetIndexFromObj (Some (default ""%string objPtr)) table flags.
Proof. destruct objPtr; reflexivity. Qed.



End NSImageType.

(** ** The print dialog *)

Section PrintDialog.

Import Print.

Variable pathExtension : string -> string.
Variable getCString : string -> Z -> string.

Local Arguments String.eqb : simpl never.

Local Abbreviation finish := (FinishPrint pathExtension getCString).
Local Abbreviation start := (StartPrint pathExtension getCString).

Lemma existsb_eqb_In (s : string) (l : list string) :
  In s l -> existsb (String.eqb s) l = true.
Proof.
  intros H. apply existsb_exists. exists s. split; [exact H|].
  apply String.eqb_refl.
Qed.

(** C4, as the code has it.  A cancelled dialog returns [noErr] and does
    nothing.  On OK, with a file registered and the printing system
    answering [noErr]: a printer destination sends the file to the current
    printer when the printer takes application/pdf; a file destination
    copies the file to a .pdf target when the file exists, and runs the CUPS
    filter for a .ps target; a preview destination opens the file and
    returns [noErr]; any destination other than printer, file and preview
    raises the alert of an unsupported operation. *)
Theorem FinishPrint_destinations (g : Globals) (file : option string)
  (buttonValue : Z) (os : PrintingSystem) :
  (buttonValue = NSModalResponseCancel ->
   finish g file buttonValue os = (g, [], noErr))
  /\ (buttonValue = NSModalResponseOK ->
      PMCreateSession os = noErr ->
      PMCreatePrintSettings os = noErr ->
      PMSessionDefaultPrintSettings os = noErr ->
      forall printURL dest,
        urlFile g = Some printURL ->
        PMSessionGetDestinationType os = (noErr, dest) ->
        let g' := mkGlobals file (urlFile g) (retained g) in
        (dest = kPMDestinationPrinter ->
         PMSessionGetCurrentPrinter os = noErr ->
         forall types,
           PMPrinterGetMimeTypes os = (noErr, Some types) ->
           In "application/pdf"%string types ->
           finish g file buttonValue os
           = (CFRelease_urlFile g',
              [PrintWithFile "application/pdf" printURL],
              PMPrinterPrintWithFile os))
        /\ (dest = kPMDestinationFile ->
            forall target,
              PMSessionCopyDestinationLocation os = (noErr, target) ->
              (pathExtension target = "pdf"%string ->
               fileExistsAtPath os printURL = true ->
               finish g file buttonValue os
               = (g', [copyItemAtPath printURL target], noErr))
              /\ (pathExtension target = "ps"%string ->
                  finish g file buttonValue os
                  = (g',
                     [system (cupsfilter_command
                                (getCString printURL 5012)
                                (getCString target 5012))],
                     noErr)))
        /\ (dest = kPMDestinationPreview ->
            finish g file buttonValue os = (g', [openURL printURL], noErr))
        /\ (dest <> kPMDestinationPrinter -> dest <> kPMDestinationFile ->
            dest <> kPMDestinationPreview ->
            finish g file buttonValue os
            = (g',
               [runAlert "Unsupported Printing Operation"
                  "This printing operation is not supported."],
               noErr))).
Proof.
  split.
  - intros ->. reflexivity.
  - intros -> Hs1 Hs2 Hs3 printURL dest Hurl Hdest g'. subst g'.
    unfold FinishPrint. rewrite Hs1, Hs2, Hs3, Hurl, Hdest. simpl.
    split; [|split; [|split]].
    + intros -> Hprinter types Hmime Hpdf. simpl.
      rewrite Hprinter, Hmime. simpl.
      rewrite (existsb_eqb_In _ _ Hpdf). reflexivity.
    + intros -> target Hloc. simpl. rewrite Hloc. simpl. split.
      * intros -> Hexists. simpl. rewrite Hexists. reflexivity.
      * intros ->. simpl. reflexivity.
    + intros ->. reflexivity.
    + intros Hp Hf Hv.
      destruct (Z.eqb_spec dest kPMDestinationPrinter); [contradiction|].
      destruct (Z.eqb_spec dest kPMDestinationFile); [contradiction|].
      destruct (Z.eqb_spec dest kPMDestinationPreview); [contradiction|].
      reflexivity.
Qed.

(** What [FinishPrint] does and returns, and the two variables it leaves,
    do not depend on the strings retained so far. *)
Lemma FinishPrint_retained (name file : option string) (kept kept' : list string)
  (buttonValue : Z) (os : PrintingSystem) :
  let r := finish (mkGlobals name file kept) name buttonValue os in
  let r' := finish (mkGlobals name file kept') name buttonValue os in
  r.2 = r'.2 /\ r.1.2 = r'.1.2
  /\ fileName r.1.1 = fileName r'.1.1 /\ urlFile r.1.1 = urlFile r'.1.1.
Proof.
  unfold FinishPrint. simpl.
  repeat match goal with
         | |- context [if ?b then _ else _] => destruct b; simpl
         | |- context [let '(_, _) := ?p in _] => destruct p; simpl
         | |- context [match ?o with Some _ => _ | None => _ end] =>
           destruct o; simpl
         end;
    auto.
Qed.

Lemma CFRelease_urlFile_keeps (g : Globals) :
  urlFile (CFRelease_urlFile g) = urlFile g
  /\ fileName (CFRelease_urlFile g) = fileName g.
Proof.
  unfold CFRelease_urlFile. destruct (urlFile g) eqn:E; simpl; auto.
Qed.

(** [FinishPrint] never writes [urlFile]. *)
Lemma FinishPrint_urlFile (g : Globals) (file : option string)
  (buttonValue : Z) (os : PrintingSystem) :
  urlFile (finish g file buttonValue os).1.1 = urlFile g.
Proof.
  unfold FinishPrint. destruct (urlFile g) as [u|] eqn:Hu.
  all: repeat match goal with
         | |- context [if ?b then _ else _] => destruct b; simpl
         | |- context [let '(_, _) := ?p in _] => destruct p; simpl
         | |- context [match ?o with Some _ => _ | None => _ end] =>
           destruct o eqn:?; simpl
         end;
    rewrite ?(proj1 (CFRelease_urlFile_keeps _)); simpl; congruence.
Qed.

(** C5, as the code has it.  The variables [fileName] and [urlFile] outlive
    the job: they keep the path of the last call.  A call of [StartPrint]
    with a file argument sets both to its own path before the panel runs, so
    its result, what it does, and the two variables it leaves are those of
    any other call with the same arguments and the same answers of the
    panel and the printing system, whatever an earlier job left behind. *)
Theorem StartPrint_overwrites_job (g g' : Globals) (objv : list string)
  (os last : PrintingSystem) :
  let r := start g objv os last in
  let r' := start g' objv os last in
  r.2 = r'.2 /\ r.1.2 = r'.1.2
  /\ ((2 <= length objv)%nat ->
      exists name, objv !! 1%nat = Some name
        /\ urlFile r.1.1 = Some name /\ urlFile r'.1.1 = Some name
        /\ fileName r.1.1 = fileName r'.1.1).
Proof.
  unfold StartPrint.
  destruct (Nat.ltb_spec (length objv) 2) as [Hshort | Hlong]; simpl.
  - repeat split; intros; lia.
  - destruct (lookup_lt_is_Some_2 objv 1%nat Hlong) as [name Hname].
    rewrite Hname. simpl.
    destruct (negb (PMCreateSession os =? noErr)); simpl;
      [repeat split; eauto|].
    destruct (negb (PMCreatePrintSettings os =? noErr)); simpl;
      [repeat split; eauto|].
    destruct (negb (PMSessionDefaultPrintSettings os =? noErr)); simpl;
      [repeat split; eauto|].
    pose proof (FinishPrint_retained (Some name) (Some name)
                  (name :: retained g) (name :: retained g')
                  (runModalWithPrintInfo os) last) as Hfin.
    cbv zeta in Hfin.
    destruct (finish (mkGlobals (Some name) (Some name) (name :: retained g))
                (Some name) (runModalWithPrintInfo os) last)
      as [[g1 a1] s1] eqn:E1.
    destruct (finish (mkGlobals (Some name) (Some name) (name :: retained g'))
                (Some name) (runModalWithPrintInfo os) last)
      as [[g2 a2] s2] eqn:E2.
    simpl in *. destruct Hfin as (Hs & Ha & Hf & Hu).
    pose proof (FinishPrint_urlFile
                  (mkGlobals (Some name) (Some name) (name :: retained g))
                  (Some name) (runModalWithPrintInfo os) last) as Hu1.
    pose proof (FinishPrint_urlFile
                  (mkGlobals (Some name) (Some name) (name :: retained g'))
                  (Some name) (runModalWithPrintInfo os) last) as Hu2.
    rewrite E1 in Hu1. rewrite E2 in Hu2. simpl in Hu1, Hu2.
    repeat split; auto. intros _. exists name. repeat split; auto.
Qed.

End PrintDialog.

(** * Instances *)

Lemma put_then_get_truncates_witness :
  (default_masks (sample_image 16)
   /\ In (bits_per_pixel (sample_image 16)) [32; 16; 8; 4]
   /\ in_buffer (sample_image 16) sample_buffer 1 0)
  /\ exists img' r g b,
       ImagePutPixel false (Some (sample_image 16)) 1 0 1193046
       = Done (Some img', 0)
       /\ ImageGetPixel false sample_RGBPixel (Some img') 1 0
          = Done (sample_RGBPixel r g b)
       /\ ImageGetPixel_rgb false (Some img') 1 0 = Done (r, g, b)
       /\ agree_top (channel_bits (bits_per_pixel (sample_image 16))) r
            (red_of 1193046)
       /\ agree_top (channel_bits (bits_per_pixel (sample_image 16))) g
            (green_of 1193046)
       /\ agree_top (channel_bits (bits_per_pixel (sample_image 16))) b
            (blue_of 1193046).
Proof.
  assert (H1 : default_masks (sample_image 16))
    by (repeat split; reflexivity).
  assert (H2 : In (bits_per_pixel (sample_image 16)) [32; 16; 8; 4])
    by (simpl; auto).
  assert (H3 : in_buffer (sample_image 16) sample_buffer 1 0)
    by (split; [reflexivity | split; vm_compute; discriminate]).
  split; [auto|].
  exact (put_then_get_truncates false sample_RGBPixel (sample_image 16)
           sample_buffer 1 0 1193046 H1 H2 H3).
Defined.

Lemma ImageGetPixel_rule_witness :
  data (sample_image 24) = Some sample_buffer
  /\ ImageGetPixel_rgb false (Some (sample_image 24)) 1 0 = Done (0, 0, 0).
Proof.
  assert (H : data (sample_image 24) = Some sample_buffer) by reflexivity.
  split; [exact H|].
  destruct (ImageGetPixel_rule false sample_RGBPixel (sample_image 24)
              sample_buffer 1 0 H) as (_ & _ & _ & _ & _ & Hother & _).
  apply Hother. reflexivity.
Defined.

Lemma ImageGetPixel_defaults_to_black_witness :
  no_buffer None
  /\ ImageGetPixel false sample_RGBPixel None 3 5
     = Done (sample_RGBPixel 0 0 0)
  /\ ImagePutPixel false None 3 5 255 = Done (None, 0).
Proof.
  assert (H : no_buffer None) by exact I.
  destruct (ImageGetPixel_defaults_to_black false sample_RGBPixel None 3 5 255)
    as (Hget & Hput).
  split; [exact H|]. split; [apply Hget; left; exact H | apply Hput; exact H].
Defined.

Lemma XCreateImage_stride_witness :
  (0 <= 5 < 4294967296 /\ 0 <= 3 < 4294967296 /\ pad_argument 0)
  /\ let image := (XCreateImage false (mkDisplay 0) 24 ZPixmap 0 None 5 3 0 0).2 in
     bitmap_pad image = 128
     /\ (bitmap_pad image / 8 | bytes_per_line image)
     /\ bytes_for (5 * bits_per_pixel image) <= bytes_per_line image
     /\ CGImage_len image = bytes_per_line image * 3.
Proof.
  assert (H1 : 0 <= 5 < 4294967296) by lia.
  assert (H2 : 0 <= 3 < 4294967296) by lia.
  assert (H3 : pad_argument 0) by (left; reflexivity).
  split; [auto|].
  destruct (XCreateImage_stride false (mkDisplay 0) 24 ZPixmap 0 None 5 3 0
              H1 H2 H3) as (Hp & Hd & Hs & Hl).
  split; [exact Hp|]. split; [exact Hd|]. split.
  - apply Hs. vm_compute. reflexivity.
  - apply Hl; vm_compute; reflexivity.
Defined.

(** C3 as stated fails where the 32 bit arithmetic wraps: a ZPixmap of
    width [2 ^ 27 + 2 ^ 20] gets a stride of 4194304 bytes, less than one
    row, and with 1024 rows the length of the copy is 0. *)
Lemma XCreateImage_stride_wraps :
  let image :=
    (XCreateImage false (mkDisplay 0) 24 ZPixmap 0 None 135266304 1024 0 0).2 in
  pad_argument 0
  /\ bytes_per_line image = 4194304
  /\ ~ (bytes_for (135266304 * bits_per_pixel image) <= bytes_per_line image)
  /\ CGImage_len image <> bytes_per_line image * 1024.
Proof.
  split; [left; reflexivity|]. split; [reflexivity|].
  split; vm_compute; congruence.
Qed.

Lemma CreateCGImage_NULL_witness :
  bits_per_pixel (sample_image 16) <> 1
  /\ bits_per_pixel (sample_image 16) <> 32
  /\ TkMacOSXCreateCGImageWithXImage unit unit unit (fun c => c)
       (fun _ _ => Some tt) (fun _ _ _ _ _ _ _ _ => Some tt) (Some tt)
       (fun _ _ _ _ _ _ _ _ _ _ _ => Some tt) (sample_image 16) 0
     = Done None.
Proof.
  assert (H1 : bits_per_pixel (sample_image 16) <> 1) by discriminate.
  assert (H32 : bits_per_pixel (sample_image 16) <> 32) by discriminate.
  split; [exact H1|]. split; [exact H32|].
  exact (proj1 (CreateCGImage_NULL unit unit unit (fun c => c)
                  (fun _ _ => Some tt) (fun _ _ _ _ _ _ _ _ => Some tt)
                  (Some tt) (fun _ _ _ _ _ _ _ _ _ _ _ => Some tt)
                  (sample_image 16) 0) H1 H32).
Defined.

Lemma instance_refers_free_is_local_witness :
  let h : gmap nat NS.cell :=
    {[ 0%nat := NS.MasterCell (sample_master "name") ]} in
  let inst := (NS.TkNSImageGet h 7 0%nat).1 in
  let h1 := (NS.TkNSImageGet h 7 0%nat).2 in
  (exists i, h1 !! inst = Some (NS.InstanceCell i) /\ NS.masterPtr i = 0%nat)
  /\ NS.TkNSImageFree h1 inst 0 = h.
Proof.
  intros h inst h1.
  destruct (instance_refers_free_is_local h 7 0 0%nat)
    as (_ & Hinst & _ & Hfree & _).
  split; [exact Hinst | exact Hfree].
Defined.




Lemma FinishPrint_destinations_witness :
  let g := Print.mkGlobals (Some "/tmp/in.pdf"%string)
             (Some "/tmp/in.pdf"%string) ["/tmp/in.pdf"%string] in
  let os := sample_system 1 Print.kPMDestinationPreview [] true in
  (Print.PMCreateSession os = Print.noErr
   /\ Print.PMCreatePrintSettings os = Print.noErr
   /\ Print.PMSessionDefaultPrintSettings os = Print.noErr
   /\ Print.urlFile g = Some "/tmp/in.pdf"%string
   /\ Print.PMSessionGetDestinationType os
      = (Print.noErr, Print.kPMDestinationPreview))
  /\ Print.FinishPrint sample_extension sample_CString g
       (Some "/tmp/in.pdf"%string) Print.NSModalResponseOK os
     = (g, [Print.openURL "/tmp/in.pdf"], Print.noErr).
Proof.
  intros g os.
  assert (H1 : Print.PMCreateSession os = Print.noErr) by reflexivity.
  assert (H2 : Print.PMCreatePrintSettings os = Print.noErr) by reflexivity.
  assert (H3 : Print.PMSessionDefaultPrintSettings os = Print.noErr)
    by reflexivity.
  assert (H4 : Print.urlFile g = Some "/tmp/in.pdf"%string) by reflexivity.
  assert (H5 : Print.PMSessionGetDestinationType os
               = (Print.noErr, Print.kPMDestinationPreview)) by reflexivity.
  split; [auto 6|].
  destruct (proj2 (FinishPrint_destinations sample_extension sample_CString g
                     (Some "/tmp/in.pdf"%string) Print.NSModalResponseOK os)
              eq_refl H1 H2 H3 "/tmp/in.pdf"%string
              Print.kPMDestinationPreview H4 H5)
    as (_ & _ & Hpreview & _).
  exact (Hpreview eq_refl).
Defined.

(** C4 as stated fails behind two guards of the code: a printer that does
    not take application/pdf is sent nothing, and a .pdf target is not
    written when the file to print does not exist. *)
Lemma FinishPrint_guards :
  let g := Print.mkGlobals (Some "/tmp/in.pdf"%string)
             (Some "/tmp/in.pdf"%string) ["/tmp/in.pdf"%string] in
  (forall mime url,
     ~ In (Print.PrintWithFile mime url)
          (Print.FinishPrint sample_extension sample_CString g
             (Some "/tmp/in.pdf"%string) Print.NSModalResponseOK
             (sample_system 1 Print.kPMDestinationPrinter
                ["application/postscript"%string] true)).1.2)
  /\ Print.FinishPrint sample_extension sample_CString g
       (Some "/tmp/in.pdf"%string) Print.NSModalResponseOK
       (sample_system 1 Print.kPMDestinationFile [] false)
     = (g, [], Print.noErr).
Proof.
  split; [|reflexivity].
  intros mime url. vm_compute. intros [H | []]. discriminate.
Qed.

Lemma StartPrint_overwrites_job_witness :
  let os := sample_system 1 Print.kPMDestinationPreview [] true in
  let objv := ["::tk::print::_print"; "/tmp/new.pdf"]%string in
  let stale := Print.mkGlobals (Some "/tmp/old.pdf"%string)
                 (Some "/tmp/old.pdf"%string) ["/tmp/old.pdf"%string] in
  let r := Print.StartPrint sample_extension sample_CString
             (Print.mkGlobals None None []) objv os os in
  let r' := Print.StartPrint sample_extension sample_CString stale objv os os in
  (2 <= length objv)%nat
  /\ r.2 = r'.2 /\ r.1.2 = r'.1.2
  /\ exists name, objv !! 1%nat = Some name
       /\ Print.urlFile r.1.1 = Some name /\ Print.urlFile r'.1.1 = Some name
       /\ Print.fileName r.1.1 = Print.fileName r'.1.1.
Proof.
  intros os objv stale r r'.
  assert (Hlen : (2 <= length objv)%nat) by (simpl; lia).
  destruct (StartPrint_overwrites_job sample_extension sample_CString
              (Print.mkGlobals None None []) stale objv os os)
    as (Hs & Ha & Hn).
  split; [exact Hlen|]. split; [exact Hs|]. split; [exact Ha|].
  exact (Hn Hlen).
Defined.

(** C5 as stated fails: after a job that was cancelled the two variables
    still hold its path, and the string retained for it is still
    retained. *)
Lemma print_job_state_persists :
  let os := sample_system 0 Print.kPMDestinationPreview [] true in
  let before := Print.mkGlobals None None [] in
  let r := Print.StartPrint sample_extension sample_CString before
             ["::tk::print::_print"; "/tmp/report.pdf"]%string os os in
  r.2 = TCL_OK
  /\ r.1.1 <> before
  /\ Print.urlFile r.1.1 = Some "/tmp/report.pdf"%string
  /\ Print.fileName r.1.1 = Some "/tmp/report.pdf"%string
  /\ Print.retained r.1.1 = ["/tmp/report.pdf"%string].
Proof.
  repeat split; try reflexivity. vm_compute. discriminate.
Qed.

(** * Further properties of the pixel routines *)

Lemma store8_frame (mem : list Z) (off v : Z) (m : list Z) (i : nat) :
  store8 mem off v = Done m -> i <> Z.to_nat off -> m !! i = mem !! i.
Proof.
  intros H Hi. apply store8_inv in H as [_ ->].
  apply list_lookup_insert_ne. auto.
Qed.

Lemma store16_frame (E : bool) (mem : list Z) (off v : Z) (m : list Z)
  (i : nat) :
  store16 E mem off v = Done m ->
  Z.of_nat i < off \/ off + 2 <= Z.of_nat i -> m !! i = mem !! i.
Proof.
  unfold store16. intros H Hi.
  destruct (store8 mem off _) as [m1|] eqn:H1; simpl in H; [|discriminate].
  pose proof (store8_inv _ _ _ _ H1) as [Hoff _].
  rewrite (store8_frame _ _ _ _ i H) by lia.
  apply (store8_frame _ _ _ _ i H1). lia.
Qed.

Lemma store32_frame (E : bool) (mem : list Z) (off v : Z) (m : list Z)
  (i : nat) :
  store32 E mem off v = Done m ->
  Z.of_nat i < off \/ off + 4 <= Z.of_nat i -> m !! i = mem !! i.
Proof.
  unfold store32. intros H Hi.
  destruct (store8 mem off _) as [m1|] eqn:H1; simpl in H; [|discriminate].
  destruct (store8 m1 (off + 1) _) as [m2|] eqn:H2; simpl in H; [|discriminate].
  destruct (store8 m2 (off + 2) _) as [m3|] eqn:H3; simpl in H; [|discriminate].
  pose proof (store8_inv _ _ _ _ H1) as [Hoff _].
  rewrite (store8_frame _ _ _ _ i H) by lia.
  rewrite (store8_frame _ _ _ _ i H3) by lia.
  rewrite (store8_frame _ _ _ _ i H2) by lia.
  apply (store8_frame _ _ _ _ i H1). lia.
Qed.

Lemma store32_length (E : bool) (mem : list Z) (off v : Z) (m : list Z) :
  store32 E mem off v = Done m -> length m = length mem.
Proof.
  unfold store32. intros H.
  destruct (store8 mem off _) as [m1|] eqn:H1; simpl in H; [|discriminate].
  destruct (store8 m1 (off + 1) _) as [m2|] eqn:H2; simpl in H; [|discriminate].
  destruct (store8 m2 (off + 2) _) as [m3|] eqn:H3; simpl in H; [|discriminate].
  apply store8_length in H, H1, H2, H3. congruence.
Qed.

Lemma set_data_id (img : XImage) (mem : list Z) :
  data img = Some mem -> set_data img mem = img.
Proof. destruct img. simpl. intros ->. reflexivity. Qed.

Section PutFrame.

Variable WORDS_BIGENDIAN : bool.

(** X1.  A call of [ImagePutPixel] that completes returns 0 and changes, of
    the whole image, only bytes of the buffer that belong to the pixel: the
    fields of the image, the length of the buffer and every byte before the
    pixel's offset or from its end on are as before. *)
Theorem ImagePutPixel_frame (img : XImage) (mem : list Z) (x y pixel : Z)
  (after : option XImage) (ret : Z) :
  data img = Some mem ->
  ImagePutPixel WORDS_BIGENDIAN (Some img) x y pixel = Done (after, ret) ->
  ret = 0
  /\ exists m,
       after = Some (set_data img m)
       /\ length m = length mem
       /\ forall i : nat,
            Z.of_nat i < pixel_offset img x y
            \/ pixel_offset img x y + pixel_bytes (bits_per_pixel img)
               <= Z.of_nat i ->
            m !! i = mem !! i.
Proof.
  intros Hdata Hput. unfold ImagePutPixel in Hput. rewrite Hdata in Hput.
  unfold pixel_bytes.
  destruct (bits_per_pixel img =? 32).
  { destruct (store32 _ mem _ _) as [m|] eqn:Hm; simpl in Hput;
      [|discriminate].
    injection Hput as <- <-. split; [reflexivity|]. exists m.
    split; [reflexivity|]. split; [eapply store32_length; eauto|].
    intros i Hi. eapply store32_frame; eauto. }
  destruct (bits_per_pixel img =? 16).
  { destruct (store16 _ mem _ _) as [m|] eqn:Hm; simpl in Hput;
      [|discriminate].
    injection Hput as <- <-. split; [reflexivity|]. exists m.
    split; [reflexivity|]. split; [eapply store16_length; eauto|].
    intros i Hi. eapply store16_frame; eauto. }
  destruct (bits_per_pixel img =? 8).
  { destruct (store8 mem _ _) as [m|] eqn:Hm; simpl in Hput; [|discriminate].
    injection Hput as <- <-. split; [reflexivity|]. exists m.
    split; [reflexivity|]. split; [eapply store8_length; eauto|].
    intros i Hi. pose proof (store8_inv _ _ _ _ Hm) as [Hoff _].
    eapply store8_frame; eauto. lia. }
  destruct (bits_per_pixel img =? 4).
  { destruct (load8 mem _) as [old|]; simpl in Hput; [|discriminate].
    destruct (store8 mem _ _) as [m|] eqn:Hm; simpl in Hput; [|discriminate].
    injection Hput as <- <-. split; [reflexivity|]. exists m.
    split; [reflexivity|]. split; [eapply store8_length; eauto|].
    intros i Hi. pose proof (store8_inv _ _ _ _ Hm) as [Hoff _].
    eapply store8_frame; eauto. lia. }
  destruct (bits_per_pixel img =? 1).
  { destruct (load8 mem _) as [old|]; simpl in Hput; [|discriminate].
    destruct (store8 mem _ _) as [m|] eqn:Hm; simpl in Hput; [|discriminate].
    injection Hput as <- <-. split; [reflexivity|]. exists m.
    split; [reflexivity|]. split; [eapply store8_length; eauto|].
    intros i Hi. pose proof (store8_inv _ _ _ _ Hm) as [Hoff _].
    eapply store8_frame; eauto. lia. }
  injection Hput as <- <-. split; [reflexivity|]. exists mem.
  split; [rewrite set_data_id by assumption; reflexivity|]. auto.
Qed.

End PutFrame.
